(** * MovieRecommender: the filter engine and the page of app.py

    A shallow embedding of [MovieRecommender.get_genres],
    [MovieRecommender.filter_movies] and the script body of [main],
    together with the parts of pandas and of Python's [re] and [str] they
    call.

    Conventions of the model.
    - A text is the list of its Unicode code points, as a Python [str]
      is; [u] reads a literal written in UTF-8.
    - A table cell that pandas shows as NaN / missing is [None].  A cell
      of the Genre or the Title column that holds no string (a column in
      which [read_csv] finds only numbers) is [None] as well.
    - A DataFrame holds its rows in positional order, every row with its
      index label, and knows which of its two text columns have a text
      dtype: [read_csv] gives a column without any string a numeric
      dtype (float64 when every cell is missing), on which the [.str]
      accessor raises AttributeError.
    - DataFrame objects live in a store; [df.copy()], [df[mask]] and
      [df.sort_values(...)] allocate a new object, as pandas does.
    - The regular-expression engine is described for literals, [.], [|],
      groups, the quantifiers [* + ?] and escaped punctuation.  What
      Python does elsewhere is a parameter of the model, [Python]:
      [re.compile] on any other pattern, [str.lower] on a text with a
      character outside ASCII, and whether re.IGNORECASE lets two
      letters match when one of them is outside ASCII.  A theorem with a
      parameter [py] holds whatever Python does there. *)

From Stdlib Require Import ZArith NArith QArith Qround List Ascii String Bool Lia.
From Stdlib Require Import Sorted Permutation.
From stdpp Require Import gmap strings sorting.
Import ListNotations.

Local Open Scope list_scope.

(** ** Texts (Python [str]) *)

Definition char : Type := N.
Definition str : Type := list char.

(** The matcher that [re.compile] returns: [pattern.search(text) is not
    None]. *)
Definition matcher : Type := str -> bool.

(** What Python does where the model does not describe it. *)
Record Python : Type := {
  (* text.lower() for a text with a character outside ASCII *)
  lower_rest : str -> str;
  (* under re.IGNORECASE, does this pattern letter match this text
     letter; asked for two different letters that are not both ASCII *)
  letter_rest : char -> char -> bool;
  (* re.compile(pattern, flags) for a pattern outside the fragment, the
     boolean being re.IGNORECASE; [None] when it raises re.error *)
  compile_rest : str -> bool -> option matcher;
  (* the lower-case form of a text that is not empty is not empty *)
  lower_rest_nonempty : forall s, s <> [] -> lower_rest s <> []
}.

Module Text.

Definition is_ascii_char (c : char) : bool := (c <? 128)%N.

Definition is_ascii (s : str) : bool := forallb is_ascii_char s.

Definition is_upper (c : char) : bool := ((65 <=? c) && (c <=? 90))%N.

(** An ASCII letter or digit. *)
Definition is_alnum (c : char) : bool :=
  (((48 <=? c) && (c <=? 57))
   || ((65 <=? c) && (c <=? 90))
   || ((97 <=? c) && (c <=? 122)))%N.

(** [str.isspace], which is what [str.strip] removes: TAB LF VT FF CR,
    FS GS RS US, the space, NEL, NBSP, and the Unicode spaces and line
    separators. *)
Definition is_space (c : char) : bool :=
  (((9 <=? c) && (c <=? 13))
   || ((28 <=? c) && (c <=? 32))
   || (c =? 133) || (c =? 160) || (c =? 5760)
   || ((8192 <=? c) && (c <=? 8202))
   || (c =? 8232) || (c =? 8233) || (c =? 8239) || (c =? 8287)
   || (c =? 12288))%N.

(** The lower-case form of an ASCII character. *)
Definition lower_char (c : char) : char :=
  if is_upper c then (c + 32)%N else c.

(** [s.lower()] *)
Definition lower (py : Python) (s : str) : str :=
  if is_ascii s then map lower_char s else lower_rest py s.

(** [s.strip()] *)
Fixpoint lstrip (l : str) : str :=
  match l with
  | [] => []
  | c :: l' => if is_space c then lstrip l' else l
  end.

Definition strip (s : str) : str := rev (lstrip (rev (lstrip s))).

(** [s.split(sep)] for a one-character separator: never empty. *)
Fixpoint split (sep : char) (l : str) : list str :=
  match l with
  | [] => [[]]
  | c :: l' =>
      if (c =? sep)%N then [] :: split sep l'
      else match split sep l' with
           | piece :: pieces => (c :: piece) :: pieces
           | [] => [[c]]
           end
  end.

(** [sep.join(parts)] *)
Fixpoint join (sep : str) (parts : list str) : str :=
  match parts with
  | [] => []
  | p :: rest =>
      match rest with
      | [] => p
      | _ :: _ => p ++ sep ++ join sep rest
      end
  end.

(** [p] occurs in [t] as a contiguous run, two characters being the same
    when [same] says so. *)
Fixpoint starts_by (same : char -> char -> bool) (p t : str) : bool :=
  match p, t with
  | [], _ => true
  | _ :: _, [] => false
  | a :: p', b :: t' => same a b && starts_by same p' t'
  end.

Fixpoint occurs_by (same : char -> char -> bool) (p t : str) : bool :=
  starts_by same p t ||
  match t with
  | [] => false
  | _ :: t' => occurs_by same p t'
  end.

(** [p in t]: the specification's "contains as a substring". *)
Definition contains (t p : str) : bool := occurs_by N.eqb p t.

(** Whether re.IGNORECASE lets the pattern letter [c] match the text
    letter [d]: two ASCII letters match when their lower-case forms are
    equal. *)
Definition same_letter (py : Python) (c d : char) : bool :=
  (c =? d)%N
  || (if is_ascii_char c && is_ascii_char d
      then (lower_char c =? lower_char d)%N
      else letter_rest py c d).

(** The two readings of "contains as a case-insensitive substring": the
    letters of [p] are found in [t] one by one up to case, as
    re.IGNORECASE compares them; or [p.lower() in t.lower()]. *)
Definition contains_letters (py : Python) (t p : str) : bool :=
  occurs_by (same_letter py) p t.

Definition contains_nocase (py : Python) (t p : str) : bool :=
  contains (lower py t) (lower py p).

(** The order of [sorted] on texts: by code point, a prefix first. *)
Fixpoint leb (a b : str) : bool :=
  match a, b with
  | [], _ => true
  | _ :: _, [] => false
  | x :: a', y :: b' =>
      if (x <? y)%N then true
      else if (y <? x)%N then false
      else leb a' b'
  end.

Definition le (a b : str) : Prop := leb a b = true.

(** [a == b] *)
Fixpoint eqb (a b : str) : bool :=
  match a, b with
  | [], [] => true
  | x :: a', y :: b' => (x =? y)%N && eqb a' b'
  | _, _ => false
  end.

(** Reading a literal: the code points of a UTF-8 byte sequence.  A byte
    that does not start a well-formed sequence is kept as the code point
    0xDC00 + byte. *)
Definition continues (b : N) : bool := ((128 <=? b) && (b <? 192))%N.

Fixpoint decode (bytes : list N) : str :=
  match bytes with
  | [] => []
  | b :: rest =>
      if (b <? 128)%N then b :: decode rest
      else
        match rest with
        | c1 :: rest1 =>
            if ((194 <=? b) && (b <? 224) && continues c1)%N then
              ((b - 192) * 64 + (c1 - 128))%N :: decode rest1
            else
              match rest1 with
              | c2 :: rest2 =>
                  if ((224 <=? b) && (b <? 240) && continues c1
                      && continues c2)%N then
                    ((b - 224) * 4096 + (c1 - 128) * 64 + (c2 - 128))%N
                    :: decode rest2
                  else
                    match rest2 with
                    | c3 :: rest3 =>
                        if ((240 <=? b) && (b <? 245) && continues c1
                            && continues c2 && continues c3)%N then
                          ((b - 240) * 262144 + (c1 - 128) * 4096
                           + (c2 - 128) * 64 + (c3 - 128))%N
                          :: decode rest3
                        else (56320 + b)%N :: decode rest
                    | [] => (56320 + b)%N :: decode rest
                    end
              | [] => (56320 + b)%N :: decode rest
              end
        | [] => [(56320 + b)%N]
        end
  end.

End Text.

(** The text of a literal. *)
Definition u (s : string) : str :=
  Text.decode (map N_of_ascii (list_ascii_of_string s)).

(** ** Regular expressions (Python [re], the fragment described above) *)

Module Re.

Inductive regex : Type :=
| Eps
| Chr (c : char)
| Any
| Seq (r1 r2 : regex)
| Alt (r1 r2 : regex)
| Star (r : regex).

Inductive quantifier := QStar | QPlus | QOpt.

Definition repeat_of (q : quantifier) (r : regex) : regex :=
  match q with
  | QStar => Star r
  | QPlus => Seq r (Star r)
  | QOpt => Alt r Eps
  end.

(** What the parser of [re.compile] does with a pattern. *)
Inductive compiled : Type :=
| Pattern (r : regex)
| Invalid            (* raises re.error *)
| Beyond.            (* syntax outside the fragment *)

(** The role of one pattern character (sre_parse: SPECIAL_CHARS,
    REPEAT_CHARS). *)
Inductive token : Type :=
| TLit | TDot | TBar | TOpen | TClose | TRepeat (q : quantifier)
| TEscape | TOther.

Definition classify (c : char) : token :=
  match c with
  | 46%N => TDot                          (* . *)
  | 124%N => TBar                         (* | *)
  | 40%N => TOpen                         (* ( *)
  | 41%N => TClose                        (* ) *)
  | 42%N => TRepeat QStar                 (* * *)
  | 43%N => TRepeat QPlus                 (* + *)
  | 63%N => TRepeat QOpt                  (* ? *)
  | 92%N => TEscape                       (* \ *)
  | 91%N | 123%N | 94%N | 36%N => TOther  (* [ { ^ $ *)
  | _ => TLit
  end.

(** One group being read: the alternatives already closed by [|] and the
    items of the alternative in progress, both newest first.  An item is
    flagged when it is a repeat, since a repeat cannot be repeated. *)
Record frame : Type := Frame {
  alts : list regex;
  items : list (regex * bool)
}.

Definition empty_frame : frame := Frame [] [].

Definition push (r : regex) (f : frame) : frame :=
  Frame (alts f) ((r, false) :: items f).

Definition seq_of (its : list (regex * bool)) : regex :=
  fold_left (fun acc it => Seq (fst it) acc) its Eps.

Definition alt_of (done : list regex) (last : regex) : regex :=
  fold_left (fun acc a => Alt a acc) done last.

Definition close_frame (f : frame) : regex :=
  alt_of (alts f) (seq_of (items f)).

Definition next_alt (f : frame) : frame :=
  Frame (seq_of (items f) :: alts f) [].

(** sre_parse._parse_sub / _parse, as a stack machine over the pattern:
    [cur] is the innermost open group, [stack] the enclosing ones. *)
Fixpoint parse (cur : frame) (stack : list frame) (s : str) : compiled :=
  match s with
  | [] =>
      match stack with
      | [] => Pattern (close_frame cur)
      | _ :: _ => Invalid       (* missing ), unterminated subpattern *)
      end
  | c :: rest =>
      match classify c with
      | TLit => parse (push (Chr c) cur) stack rest
      | TDot => parse (push Any cur) stack rest
      | TBar => parse (next_alt cur) stack rest
      | TOpen =>
          match rest with
          | 63%N :: _ => Beyond              (* (? : extension syntax *)
          | _ => parse empty_frame (cur :: stack) rest
          end
      | TClose =>
          match stack with
          | [] => Invalid                    (* unbalanced parenthesis *)
          | parent :: stack' =>
              parse (push (close_frame cur) parent) stack' rest
          end
      | TRepeat q =>
          match items cur with
          | [] => Invalid                    (* nothing to repeat *)
          | (_, true) :: _ => Beyond         (* lazy, possessive, multiple *)
          | (r, false) :: its =>
              parse (Frame (alts cur) ((repeat_of q r, true) :: its))
                    stack rest
          end
      | TEscape =>
          match rest with
          | [] => Invalid                    (* bad escape (end of pattern) *)
          | d :: rest' =>
              if Text.is_alnum d then Beyond (* class, control or numeric *)
              else parse (push (Chr d) cur) stack rest'
          end
      | TOther => Beyond
      end
  end.

(** The parser on a whole pattern. *)
Definition compile (pat : str) : compiled := parse empty_frame [] pat.

Definition newline : char := 10%N.

Fixpoint nullable (r : regex) : bool :=
  match r with
  | Eps => true
  | Chr _ => false
  | Any => false
  | Seq r1 r2 => nullable r1 && nullable r2
  | Alt r1 r2 => nullable r1 || nullable r2
  | Star _ => true
  end.

(** The union of two languages, [None] being the empty one. *)
Definition union (a b : option regex) : option regex :=
  match a, b with
  | Some x, Some y => Some (Alt x y)
  | Some x, None => Some x
  | None, o => o
  end.

Section Matching.

Variable py : Python.

(** Matching.  [ic] is re.IGNORECASE. *)
Definition chr_eq (ic : bool) (c d : char) : bool :=
  if ic then Text.same_letter py c d else (c =? d)%N.

(** [deriv ic d r] is what may follow a leading [d] in a word of [r];
    [None] when no word of [r] starts with [d]. *)
Fixpoint deriv (ic : bool) (d : char) (r : regex) : option regex :=
  match r with
  | Eps => None
  | Chr c => if chr_eq ic c d then Some Eps else None
  | Any => if (d =? newline)%N then None else Some Eps
  | Seq r1 r2 =>
      let left := option_map (fun r1' => Seq r1' r2) (deriv ic d r1) in
      if nullable r1 then union left (deriv ic d r2) else left
  | Alt r1 r2 => union (deriv ic d r1) (deriv ic d r2)
  | Star r1 => option_map (fun r1' => Seq r1' (Star r1)) (deriv ic d r1)
  end.

(** Some prefix of [s] is matched by [r] ([pattern.match(s)]). *)
Fixpoint match_prefix (ic : bool) (r : regex) (s : str) : bool :=
  nullable r ||
  match s with
  | [] => false
  | d :: s' =>
      match deriv ic d r with
      | Some r' => match_prefix ic r' s'
      | None => false
      end
  end.

(** Some substring of [s] is matched by [r]
    ([pattern.search(s) is not None]). *)
Fixpoint search (ic : bool) (r : regex) (s : str) : bool :=
  match_prefix ic r s ||
  match s with
  | [] => false
  | _ :: s' => search ic r s'
  end.

(** [re.compile(pat, flags)]: [None] when it raises re.error. *)
Definition engine (pat : str) (ic : bool) : option matcher :=
  match compile pat with
  | Pattern r => Some (search ic r)
  | Invalid => None
  | Beyond => compile_rest py pat ic
  end.

(** The language of a regex, for reasoning. *)
Inductive Matches (ic : bool) : regex -> str -> Prop :=
| MEps : Matches ic Eps []
| MChr c d : chr_eq ic c d = true -> Matches ic (Chr c) [d]
| MAny d : d <> newline -> Matches ic Any [d]
| MSeq r1 r2 s1 s2 :
    Matches ic r1 s1 -> Matches ic r2 s2 -> Matches ic (Seq r1 r2) (s1 ++ s2)
| MAltL r1 r2 s : Matches ic r1 s -> Matches ic (Alt r1 r2) s
| MAltR r1 r2 s : Matches ic r2 s -> Matches ic (Alt r1 r2) s
| MStar0 r : Matches ic (Star r) []
| MStarS r s1 s2 :
    Matches ic r s1 -> Matches ic (Star r) s2 ->
    Matches ic (Star r) (s1 ++ s2).

Definition OMatches (ic : bool) (o : option regex) (s : str) : Prop :=
  exists r, o = Some r /\ Matches ic r s.

(** [s] spells the word [w], up to case when [ic] is set. *)
Definition spells (ic : bool) (w s : str) : Prop :=
  Forall2 (fun c d => chr_eq ic c d = true) w s.

End Matching.

(** The pattern of a word read literally, and the state of the parser
    after reading such a word, or several of them separated by [|]. *)
Definition lit (w : str) : regex :=
  fold_right (fun c acc => Seq (Chr c) acc) Eps w.

Definition feed (f : frame) (w : str) : frame :=
  fold_left (fun f c => push (Chr c) f) w f.

Fixpoint feed_words (f : frame) (w : str) (ws : list str) : frame :=
  match ws with
  | [] => feed f w
  | w' :: ws' => feed_words (next_alt (feed f w)) w' ws'
  end.

End Re.


(** ** The table (pandas) *)

(** One row of movies.csv.  [label] is the row's index label.  A cell of
    a text column is [None] when it holds no string. *)
Record Movie : Type := mkMovie {
  label : Z;
  Title : option str;
  Genre : option str;
  Rating : option Q;
  Year : option Z;
  Runtime : option Z;
  Director : option str;
  Description : option str
}.

Definition Rows : Type := list Movie.

(** A DataFrame: its rows, and whether the Genre and the Title column
    have a text dtype.  The dtype of a column is decided when the table
    is loaded, and selecting or sorting rows keeps it. *)
Record DataFrame : Type := mkFrame {
  genre_text : bool;
  title_text : bool;
  rows : Rows
}.

(** The frame with other rows and the same columns. *)
Definition with_rows (d : DataFrame) (r : Rows) : DataFrame :=
  mkFrame (genre_text d) (title_text d) r.

(** The dtype [read_csv] infers for a column: a text dtype when the
    column holds a string, and also when the table has no row at all; a
    column of a table with rows in which no cell is a string is read as
    numbers (an all-missing column is float64). *)
Definition holds_text (cells : list (option str)) : bool :=
  match cells with
  | [] => true
  | _ :: _ => existsb (fun cell => match cell with
                                   | Some _ => true
                                   | None => false
                                   end) cells
  end.

(** The frame [read_csv] builds from the rows of a file. *)
Definition loaded (d : Rows) : DataFrame :=
  mkFrame (holds_text (map Genre d)) (holds_text (map Title d)) d.

Definition loc : Type := positive.

Abbreviation store := (gmap loc DataFrame).

Inductive exn : Type :=
| ReError            (* re.error: the pattern is not a regular expression *)
| AttributeError.    (* no attribute 'split' on a float;
                        .str on a column that is not text *)

Inductive outcome (A : Type) : Type :=
| Ok (a : A)
| Raise (e : exn)
| Outside.           (* a reference that is bound to no object *)

Arguments Ok {A} a.
Arguments Raise {A} e.
Arguments Outside {A}.

(** Computations over the object store that may raise. *)
Definition M (A : Type) : Type := store -> outcome A * store.

Definition ret {A} (a : A) : M A := fun st => (Ok a, st).

Definition raise {A} (e : exn) : M A := fun st => (Raise e, st).

Definition bind {A B} (c : M A) (k : A -> M B) : M B :=
  fun st =>
    match c st with
    | (Ok a, st') => k a st'
    | (Raise e, st') => (Raise e, st')
    | (Outside, st') => (Outside, st')
    end.

Notation "'let*' x := c 'in' k" := (bind c (fun x => k))
  (at level 10, x name, c at level 100, k at level 200).

(** Reading an object; a reference that is not bound cannot arise in
    Python and is reported as [Outside]. *)
Definition read (l : loc) : M DataFrame :=
  fun st => match st !! l with
            | Some d => (Ok d, st)
            | None => (Outside, st)
            end.

Definition alloc (d : DataFrame) : M loc :=
  fun st => let l := fresh (dom st) in (Ok l, <[l := d]> st).

Module Pandas.

(** [pd.read_csv(path)], from the rows of the file. *)
Definition read_csv (file : Rows) : M loc := alloc (loaded file).

(** [df.copy()] *)
Definition copy (l : loc) : M loc :=
  let* d := read l in alloc d.

(** [df[name]] for a numeric column, as the sequence of its cells. *)
Definition column {A} (field : Movie -> A) (l : loc) : M (list A) :=
  let* d := read l in ret (map field (rows d)).

(** A column that may hold text: its cells, and whether its dtype is a
    text dtype. *)
Record Series : Type := mkSeries {
  text_dtype : bool;
  cells : list (option str)
}.

(** [df[name]] for the Genre or the Title column. *)
Definition text_column (dtype : DataFrame -> bool)
    (field : Movie -> option str) (l : loc) : M Series :=
  let* d := read l in ret (mkSeries (dtype d) (map field (rows d))).

(** [series.str]: the accessor raises AttributeError on a column whose
    dtype is not a text dtype, before any method of it is called. *)
Definition str_accessor (s : Series) : M (list (option str)) :=
  if text_dtype s then ret (cells s) else raise AttributeError.

(** [series.str.lower()]: a text column again; missing cells stay
    missing. *)
Definition str_lower (py : Python) (col : list (option str)) : Series :=
  mkSeries true (map (option_map (Text.lower py)) col).

(** [series.str.contains(pat, case=case, na=na)] with the default
    [regex=True]: the pattern is compiled once, before any cell is
    looked at, with re.IGNORECASE when [case] is false. *)
Definition str_contains (py : Python) (col : list (option str)) (pat : str)
    (case na : bool) : M (list bool) :=
  match Re.engine py pat (negb case) with
  | Some found =>
      ret (map (fun cell => match cell with
                            | Some s => found s
                            | None => na
                            end) col)
  | None => raise ReError
  end.

Definition Qltb (x y : Q) : bool := negb (Qle_bool y x).

(** [series >= k] and [series < k] for an integer [k]: a comparison
    with NaN is False. *)
Definition ge (col : list (option Q)) (k : Z) : list bool :=
  map (fun cell => match cell with
                   | Some x => Qle_bool (inject_Z k) x
                   | None => false
                   end) col.

Definition lt (col : list (option Q)) (k : Z) : list bool :=
  map (fun cell => match cell with
                   | Some x => Qltb x (inject_Z k)
                   | None => false
                   end) col.

(** [mask1 & mask2] *)
Fixpoint mask_and (m1 m2 : list bool) : list bool :=
  match m1, m2 with
  | b1 :: m1', b2 :: m2' => (b1 && b2) :: mask_and m1' m2'
  | _, _ => []
  end.

Fixpoint select (d : Rows) (mask : list bool) : Rows :=
  match d, mask with
  | row :: d', b :: mask' =>
      if b then row :: select d' mask' else select d' mask'
  | _, _ => []
  end.

(** [df[mask]] for a boolean mask: a new frame with the selected rows. *)
Definition getitem (l : loc) (mask : list bool) : M loc :=
  let* d := read l in alloc (with_rows d (select (rows d) mask)).

(** A stable sort: [before y x] says that [y] must come strictly
    earlier than [x]; rows that tie keep their order. *)
Section StableSort.
Context {A : Type} (before : A -> A -> bool).

Fixpoint insert (x : A) (l : list A) : list A :=
  match l with
  | [] => [x]
  | y :: l' => if before y x then y :: insert x l' else x :: l
  end.

Fixpoint stable_sort (l : list A) : list A :=
  match l with
  | [] => []
  | x :: l' => insert x (stable_sort l')
  end.
End StableSort.

(** The order of one descending key with [na_position='last']. *)
Definition desc_before {K} (ltb : K -> K -> bool) (a b : option K) : bool :=
  match a, b with
  | Some x, Some y => ltb y x
  | Some _, None => true
  | None, _ => false
  end.

Definition year_before (a b : Movie) : bool :=
  desc_before Z.ltb (Year a) (Year b).

Definition rating_before (a b : Movie) : bool :=
  desc_before Qltb (Rating a) (Rating b).

(** [df.sort_values(by=["Year", "Rating"], ascending=[False, False])].
    With several keys pandas sorts lexicographically (numpy lexsort):
    one stable pass per key, the least significant key first. *)
Definition lexsort (d : Rows) : Rows :=
  stable_sort year_before (stable_sort rating_before d).

Definition sort_values (l : loc) : M loc :=
  let* d := read l in alloc (with_rows d (lexsort (rows d))).

End Pandas.

(** ** The class *)

Record MovieRecommender : Type := { df : loc }.

(** [MovieRecommender(csv_path)], from the rows of the file. *)
Definition init (file : Rows) : M MovieRecommender :=
  let* table := Pandas.read_csv file in ret {| df := table |}.

Definition truthy {A} (l : list A) : bool :=
  match l with [] => false | _ :: _ => true end.

(** The loop body of [get_genres] for one cell of the Genre column. *)
Definition add_genres (genres : gset str) (g : option str)
  : M (gset str) :=
  match g with
  | None => raise AttributeError
  | Some g =>
      ret (fold_left (fun acc genre => acc ∪ {[ Text.strip genre ]})
                     (Text.split 44%N g) genres)
  end.

Fixpoint for_each {A S} (body : S -> A -> M S) (l : list A) (s : S) : M S :=
  match l with
  | [] => ret s
  | x :: l' => let* s' := body s x in for_each body l' s'
  end.

#[global] Instance text_le_dec (a b : str) : Decision (Text.le a b).
Proof. unfold Text.le. apply _. Defined.

Definition sorted (s : gset str) : list str :=
  merge_sort Text.le (elements s).

Definition get_genres (self : MovieRecommender) : M (list str) :=
  let* col := Pandas.text_column genre_text Genre (df self) in
  let* genres := for_each add_genres (Pandas.cells col) ∅ in
  ret (sorted genres).

Definition filter_movies (py : Python) (self : MovieRecommender)
    (genres : list str) (rating : Z) (search_query : str) : M loc :=
  let* data := Pandas.copy (df self) in
  (* Filter genre *)
  let selected_genres :=
    List.filter (fun g => negb (Text.eqb g (u "All"))) genres in
  let* data :=
    if truthy selected_genres then
      let pattern := Text.join (u "|") selected_genres in
      let* col := Pandas.text_column genre_text Genre data in
      let* texts := Pandas.str_accessor col in
      let* mask := Pandas.str_contains py texts pattern false false in
      Pandas.getitem data mask
    else ret data in
  (* Filter rating *)
  let* data :=
    if (0 <? rating)%Z then
      let* col := Pandas.column Rating data in
      Pandas.getitem data
        (Pandas.mask_and (Pandas.ge col rating) (Pandas.lt col (rating + 1)))
    else ret data in
  (* Filter search *)
  let* data :=
    if truthy search_query then
      let* col := Pandas.text_column title_text Title data in
      let* texts := Pandas.str_accessor col in
      let* lowered := Pandas.str_accessor (Pandas.str_lower py texts) in
      let* mask :=
        Pandas.str_contains py lowered (Text.lower py search_query)
                            true false in
      Pandas.getitem data mask
    else ret data in
  Pandas.sort_values data.

(** The view a call hands back: the rows of the returned frame. *)
Definition view_of (res : outcome loc * store) : outcome Rows :=
  match res with
  | (Ok l, st) =>
      match st !! l with
      | Some d => Ok (rows d)
      | None => Outside
      end
  | (Raise e, _) => Raise e
  | (Outside, _) => Outside
  end.

(** ** Sample data *)

(** A Python for the examples: outside ASCII it lower-cases nothing and
    lets no two different letters match, and it rejects every pattern
    outside the fragment.  The examples use ASCII texts and patterns of
    the fragment, on which it is never consulted. *)
Definition ascii_python : Python :=
  {| lower_rest := fun s => s;
     letter_rest := fun _ _ => false;
     compile_rest := fun _ _ => None;
     lower_rest_nonempty := fun _ H => H |}.

Definition movie (i : Z) (title genre : string) (rating : Q) (year : Z)
  : Movie :=
  mkMovie i (Some (u title)) (Some (u genre)) (Some rating) (Some year)
          (Some 100%Z) (Some (u "Someone")) (Some []).

(** A store holding one loaded table, and the recommender built on it. *)
Definition st0 (d : Rows) : store := {[ 1%positive := loaded d ]}.
Definition rec0 : MovieRecommender := {| df := 1%positive |}.

Definition demo : Rows :=
  [ movie 0 "Batman Begins" "Action, Adventure" (79 # 10) 2005;
    movie 1 "Up" "Animation, Adventure, comedy" (8 # 1) 2009;
    movie 2 "The Room" "Drama" (37 # 10) 2003;
    movie 3 "Inception" "Action, Sci-Fi" (88 # 10) 2010;
    movie 4 "Another" "Drama" (69 # 10) 2010 ].

Definition summer : Movie :=
  movie 5 "(500) Days of Summer" "Comedy, Drama, Romance" (77 # 10) 2009.

(** A row whose Genre and Rating are missing. *)
Definition untagged : Movie :=
  mkMovie 6 (Some (u "Untitled")) None None (Some 2001%Z) None None None.

Definition band_demo : Rows :=
  [ movie 0 "Low" "Drama" (69 # 10) 2001;
    movie 1 "In" "Drama" (79 # 10) 2002;
    movie 2 "High" "Drama" (8 # 1) 2003 ].

Definition genre_demo : Rows :=
  [ movie 0 "First" "Action, Comedy" (7 # 1) 2001;
    movie 1 "Second" "comedy, Drama" (7 # 1) 2002 ].

Definition year_demo : Rows :=
  [ movie 0 "Older" "Drama" (8 # 1) 2010;
    movie 1 "Newer" "Drama" (5 # 1) 2015 ].

(** ** What a call computes, as a function of the stored table

    These definitions restate the body of [filter_movies] without the
    store; [filter_movies_view] below proves that they agree with it. *)

Definition selected_genres (genres : list str) : list str :=
  List.filter (fun g => negb (Text.eqb g (u "All"))) genres.

(** The pattern of the genre step and of the text step, when the step
    is active. *)
Definition genre_pattern (genres : list str) : option str :=
  if truthy (selected_genres genres)
  then Some (Text.join (u "|") (selected_genres genres))
  else None.

Definition query_pattern (py : Python) (search_query : str) : option str :=
  if truthy search_query then Some (Text.lower py search_query) else None.

(** What stops a step that matches the pattern [p] on a column: the
    [.str] accessor on a column that is not text, then [re.compile] on a
    pattern that is no regular expression.  [ic] is re.IGNORECASE. *)
Definition step_error (py : Python) (is_text ic : bool) (p : option str)
  : option exn :=
  match p with
  | None => None
  | Some pat =>
      if is_text then
        match Re.engine py pat ic with
        | Some _ => None
        | None => Some ReError
        end
      else Some AttributeError
  end.

Definition call_error (py : Python) (d : DataFrame) (genres : list str)
    (search_query : str) : option exn :=
  match step_error py (genre_text d) true (genre_pattern genres) with
  | Some e => Some e
  | None => step_error py (title_text d) false (query_pattern py search_query)
  end.

Definition step_raises (py : Python) (is_text ic : bool) (p : option str)
  : bool :=
  match step_error py is_text ic p with
  | Some _ => true
  | None => false
  end.

(** The call raises: the genre step or the text step does. *)
Definition call_raises (py : Python) (d : DataFrame) (genres : list str)
    (search_query : str) : bool :=
  step_raises py (genre_text d) true (genre_pattern genres)
  || step_raises py (title_text d) false (query_pattern py search_query).

(** A cell passes a step: the step is not active, or the cell is a text
    in which the pattern is found. *)
Definition found_by (py : Python) (ic : bool) (p : option str)
    (cell : option str) : bool :=
  match p with
  | None => true
  | Some pat =>
      match Re.engine py pat ic, cell with
      | Some found, Some s => found s
      | _, _ => false
      end
  end.

Definition pass_genre (py : Python) (genres : list str) (m : Movie) : bool :=
  found_by py true (genre_pattern genres) (Genre m).

Definition in_band (rating : Z) (cell : option Q) : bool :=
  match cell with
  | Some x => Qle_bool (inject_Z rating) x && Pandas.Qltb x (inject_Z (rating + 1))
  | None => false
  end.

Definition keep_rating (rating : Z) (m : Movie) : bool :=
  if (0 <? rating)%Z then in_band rating (Rating m) else true.

Definition pass_title (py : Python) (search_query : str) (m : Movie) : bool :=
  found_by py false (query_pattern py search_query)
           (option_map (Text.lower py) (Title m)).

(** The rows a call keeps. *)
Definition passes (py : Python) (genres : list str) (rating : Z)
    (search_query : str) (m : Movie) : bool :=
  pass_genre py genres m && keep_rating rating m && pass_title py search_query m.

Definition expected_view (py : Python) (d : DataFrame) (genres : list str)
    (rating : Z) (search_query : str) : outcome Rows :=
  match call_error py d genres search_query with
  | Some e => Raise e
  | None =>
      Ok (Pandas.lexsort
            (List.filter (passes py genres rating search_query) (rows d)))
  end.

(** ** The properties of the specification, in its own words *)

(** A character that [re] reads as itself. *)
Definition plain_char (c : char) : Prop := Re.classify c = Re.TLit.

(** A text without regular-expression metacharacters. *)
Definition plain (s : str) : Prop := Forall plain_char s.

(** Genre step of the specification: with at least one tag other than
    "All", a record passes when its Genre contains one of those tags as a
    case-insensitive substring; a missing Genre does not pass. *)
Definition spec_genre (py : Python) (genres : list str) (m : Movie) : bool :=
  if truthy (selected_genres genres) then
    match Genre m with
    | Some g => existsb (Text.contains_letters py g) (selected_genres genres)
    | None => false
    end
  else true.

(** Text step of the specification. *)
Definition spec_title (py : Python) (search_text : str) (m : Movie) : bool :=
  if truthy search_text then
    match Title m with
    | Some t => Text.contains_nocase py t search_text
    | None => false
    end
  else true.

(** Rating step of the specification: the half-open band. *)
Definition spec_rating (r : Z) (m : Movie) : Prop :=
  (0 < r)%Z ->
  exists x, Rating m = Some x /\ (inject_Z r <= x)%Q /\ (x < inject_Z (r + 1))%Q.

(** Descending order on cells with missing values last. *)
Definition cell_gt {K} (lt : K -> K -> Prop) (a b : option K) : Prop :=
  match a, b with
  | Some x, Some y => lt y x
  | Some _, None => True
  | None, _ => False
  end.

Definition cell_eq {K} (eq : K -> K -> Prop) (a b : option K) : Prop :=
  match a, b with
  | Some x, Some y => eq x y
  | None, None => True
  | _, _ => False
  end.

(** [a] may stand before [b]: Year descending, then Rating descending. *)
Definition in_order (a b : Movie) : Prop :=
  cell_gt Z.lt (Year a) (Year b)
  \/ (cell_eq Logic.eq (Year a) (Year b)
      /\ (cell_gt Qlt (Rating a) (Rating b)
          \/ cell_eq Qeq (Rating a) (Rating b))).

(** [m] has the Year and the Rating of [k]. *)
Definition same_key (k m : Movie) : bool :=
  match Year k, Year m with
  | Some x, Some y => (x =? y)%Z
  | None, None => true
  | _, _ => false
  end
  &&
  match Rating k, Rating m with
  | Some x, Some y => Qeq_bool x y
  | None, None => true
  | _, _ => false
  end.

(** The tags of one Genre string, as [get_genres] reads them. *)
Definition tags_of (g : str) : list str :=
  map Text.strip (Text.split 44%N g).

(** ** The page ([main])

    The script body of [main], from the session state to the cards of
    one page.  What the widgets return in a run is an input of the run:
    the selected genres, the slider value, whether the button was
    clicked, the search text and the page the user asked for.  A keyed
    widget returns the value stored under its key, so
    [st.session_state.selected_genres] and friends are these inputs. *)

Definition per_page : Z := 12.

(** [math.ceil(len(results) / per_page)].  The quotient is taken exactly;
    Python rounds it to a float first, which changes nothing for tables
    of fewer than 2^52 rows. *)
Definition total_pages (results : Rows) : Z :=
  Qceiling (inject_Z (Z.of_nat (length results)) / inject_Z per_page).

(** A bound of a Python slice over [n] items: negative bounds count from
    the end, and bounds are clipped to the sequence. *)
Definition slice_bound (n i : Z) : Z :=
  if (i <? 0)%Z then Z.max 0 (n + i) else Z.min i n.

(** [results.iloc[start:stop]] *)
Definition iloc (results : Rows) (start stop : Z) : Rows :=
  let n := Z.of_nat (length results) in
  let first := slice_bound n start in
  let last := slice_bound n stop in
  firstn (Z.to_nat (last - first)) (skipn (Z.to_nat first) results).

Definition page_data (results : Rows) (page : Z) : Rows :=
  let start := ((page - 1) * per_page)%Z in
  let stop := (start + per_page)%Z in
  iloc results start stop.

(** [st.number_input(min_value, max_value, value)]: Streamlit rejects a
    [value] outside the bounds ([None]); otherwise the widget returns
    the number the user asked for when it lies within the bounds, and
    [value] when the user asked for none. *)
Definition number_input (min_value max_value value : Z) (asked : option Z)
  : option Z :=
  if ((min_value <=? value) && (value <=? max_value))%Z then
    match asked with
    | Some p =>
        if ((min_value <=? p) && (p <=? max_value))%Z then Some p
        else Some value
    | None => Some value
    end
  else None.



(** [st.session_state.results] and [st.session_state.page]. *)
Record Session : Type := mkSession {
  results : loc;
  page : Z
}.

Record Widgets : Type := mkWidgets {
  selected : list str;         (* st.sidebar.multiselect, key selected_genres *)
  slider : Z;                  (* st.sidebar.slider, key rating *)
  clicked : bool;              (* st.sidebar.button *)
  typed : str;                 (* st.text_input, key search_query *)
  asked_page : option Z        (* st.number_input *)
}.

(** What a run leaves on the screen. *)
Inductive shown : Type :=
| NotFound                                   (* st.warning, then return *)
| Cards (found : nat) (number : Z) (cards : Rows)
| Uncaught (e : exn)                         (* a call raised *)
| RejectedPage                               (* number_input raised *)
| Unmodelled.

(** The session of a first run:
    [results = recommender.df] and [page = 1]. *)
Definition init_session (recommender : MovieRecommender) : Session :=
  mkSession (df recommender) 1.

(** [st.session_state.results = recommender.filter_movies(...)] followed
    by [st.session_state.page = 1]; nothing is assigned when the call
    raises. *)
Definition refilter (py : Python) (recommender : MovieRecommender)
    (genres : list str) (rating : Z) (search_query : str) : M Session :=
  let* view := filter_movies py recommender genres rating search_query in
  ret (mkSession view 1).

(** The callback of the genre widget. *)
Definition apply_filter (py : Python) (recommender : MovieRecommender)
    (w : Widgets) : M Session :=
  refilter py recommender (selected w) (-1) (typed w).

(** What the last part of a run shows, from the session of that point:
    the warning, or the cards of the page. *)
Definition show (ss : Session) (w : Widgets) (st : store)
  : shown * Session * store :=
  match (st !! results ss : option DataFrame) with
  | None => (Unmodelled, ss, st)
  | Some res =>
      if negb (truthy (rows res)) then (NotFound, ss, st)
      else
        match number_input 1 (total_pages (rows res)) (page ss)
                           (asked_page w) with
        | None => (RejectedPage, ss, st)
        | Some p =>
            (Cards (length (rows res)) p (page_data (rows res) p),
             mkSession (results ss) p, st)
        end
  end.

(** One run of the script body after the session is initialised. *)
Definition main (py : Python) (recommender : MovieRecommender) (ss : Session)
    (w : Widgets) (st : store) : shown * Session * store :=
  (* the options of the multiselect: ["All"] + recommender.get_genres() *)
  match get_genres recommender st with
  | (Raise e, st0) => (Uncaught e, ss, st0)
  | (Outside, st0) => (Unmodelled, ss, st0)
  | (Ok _, st0) =>
      (* the "Rekomendasikan" button *)
      match (if clicked w
             then refilter py recommender (selected w) (slider w) (typed w)
             else ret ss) st0 with
      | (Raise e, st1) => (Uncaught e, ss, st1)
      | (Outside, st1) => (Unmodelled, ss, st1)
      | (Ok ss1, st1) =>
          (* the search box *)
          match (if truthy (typed w)
                 then refilter py recommender (selected w) (-1) (typed w)
                 else ret ss1) st1 with
          | (Raise e, st2) => (Uncaught e, ss1, st2)
          | (Outside, st2) => (Unmodelled, ss1, st2)
          | (Ok ss2, st2) => show ss2 w st2
          end
      end
  end.

(** The session's page is a page of the session's results. *)
Definition valid_session (ss : Session) (st : store) : Prop :=
  exists res, st !! results ss = Some res
              /\ (page ss = 1%Z \/ (1 <= page ss <= total_pages (rows res))%Z).

(** The widgets of a run in which the user touched nothing. *)
Definition idle : Widgets := mkWidgets [u "All"] 7 false [] None.

(** ** Vocabulary of the proofs *)

(** A stage of a call that began in store [st0]: run from a later store
    [st], it ends in a frame that did not exist at the call ... *)
Definition stage_ok (st0 : store) (c : M loc) (st : store) (out : DataFrame)
  : Prop :=
  exists l' st', c st = (Ok l', st') /\ st0 ⊆ st' /\ st0 !! l' = None
                 /\ st' !! l' = Some out.

(** ... or it stops the call with outcome [o]. *)
Definition stage_stops (st0 : store) (c : M loc) (st : store)
    (o : outcome loc) : Prop :=
  exists st', c st = (o, st') /\ st0 ⊆ st'.

(** The order reached by a sorting pass over a list already in order [R]:
    the key of the pass decides, and rows that tie on it are still in
    order [R]. *)
Definition refined {A} (before : A -> A -> bool) (R : A -> A -> Prop)
    (a b : A) : Prop :=
  before b a = false /\ (before a b = false -> R a b).

Ltac plain_text := unfold plain; vm_compute; repeat constructor.

(** * Proofs *)

(** ** The store *)

Section Store.

Lemma fresh_unbound (st : store) : st !! fresh (dom st) = None.
Proof. apply not_elem_of_dom, is_fresh. Qed.

Lemma alloc_extends (st : store) (d : DataFrame) :
  st ⊆ <[fresh (dom st) := d]> st.
Proof. apply insert_subseteq, fresh_unbound. Qed.

Lemma bind_ok {A B} (c : M A) (k : A -> M B) st a st' :
  c st = (Ok a, st') -> bind c k st = k a st'.
Proof. intros H. unfold bind. now rewrite H. Qed.

Lemma bind_raise {A B} (c : M A) (k : A -> M B) st e st' :
  c st = (Raise e, st') -> bind c k st = (Raise e, st').
Proof. intros H. unfold bind. now rewrite H. Qed.

Lemma bind_outside {A B} (c : M A) (k : A -> M B) st st' :
  c st = (Outside, st') -> bind c k st = (Outside, st').
Proof. intros H. unfold bind. now rewrite H. Qed.

Lemma read_bound (st : store) l d : st !! l = Some d -> read l st = (Ok d, st).
Proof. intros H. unfold read. now rewrite H. Qed.

Lemma column_run {A} (field : Movie -> A) (st : store) l d :
  st !! l = Some d -> Pandas.column field l st = (Ok (map field (rows d)), st).
Proof.
  intros H. unfold Pandas.column.
  now rewrite (bind_ok _ _ _ _ _ (read_bound _ _ _ H)).
Qed.

Lemma text_column_run dtype field (st : store) l d :
  st !! l = Some d ->
  Pandas.text_column dtype field l st
  = (Ok (Pandas.mkSeries (dtype d) (map field (rows d))), st).
Proof.
  intros H. unfold Pandas.text_column.
  now rewrite (bind_ok _ _ _ _ _ (read_bound _ _ _ H)).
Qed.

(** The three operations that build a frame return a fresh object and
    leave every other object alone. *)
Lemma copy_run (st : store) l d :
  st !! l = Some d ->
  Pandas.copy l st = (Ok (fresh (dom st)), <[fresh (dom st) := d]> st).
Proof.
  intros H. unfold Pandas.copy.
  now rewrite (bind_ok _ _ _ _ _ (read_bound _ _ _ H)).
Qed.

Lemma getitem_run (st : store) l d mask :
  st !! l = Some d ->
  Pandas.getitem l mask st
  = (Ok (fresh (dom st)),
     <[fresh (dom st) := with_rows d (Pandas.select (rows d) mask)]> st).
Proof.
  intros H. unfold Pandas.getitem.
  now rewrite (bind_ok _ _ _ _ _ (read_bound _ _ _ H)).
Qed.

Lemma sort_values_run (st : store) l d :
  st !! l = Some d ->
  Pandas.sort_values l st
  = (Ok (fresh (dom st)),
     <[fresh (dom st) := with_rows d (Pandas.lexsort (rows d))]> st).
Proof.
  intros H. unfold Pandas.sort_values.
  now rewrite (bind_ok _ _ _ _ _ (read_bound _ _ _ H)).
Qed.

End Store.

Lemma with_rows_same d : with_rows d (rows d) = d.
Proof. now destruct d. Qed.

(** A recommender is built on a new object, the loaded table. *)
Lemma init_run (st : store) (file : Rows) :
  exists self st',
    init file st = (Ok self, st')
    /\ st ⊆ st' /\ st !! df self = None
    /\ st' !! df self = Some (loaded file).
Proof.
  exists {| df := fresh (dom st) |}, (<[fresh (dom st) := loaded file]> st).
  split; [reflexivity|]. split; [apply alloc_extends|].
  split; [apply fresh_unbound|apply lookup_insert_eq].
Qed.

(** ** Masks *)

Lemma select_map (f : Movie -> bool) (d : Rows) :
  Pandas.select d (map f d) = List.filter f d.
Proof.
  induction d as [|m d IH]; simpl; [reflexivity|].
  rewrite IH. reflexivity.
Qed.

Lemma mask_and_map {A} (f g : A -> bool) (l : list A) :
  Pandas.mask_and (map f l) (map g l) = map (fun x => f x && g x) l.
Proof.
  induction l as [|x l IH]; simpl; [reflexivity|]. now rewrite IH.
Qed.

Lemma filter_filter {A} (f g : A -> bool) (l : list A) :
  List.filter g (List.filter f l) = List.filter (fun x => f x && g x) l.
Proof.
  induction l as [|x l IH]; simpl; [reflexivity|].
  destruct (f x); simpl; [destruct (g x)|]; now rewrite IH.
Qed.

Lemma filter_all {A} (l : list A) : List.filter (fun _ => true) l = l.
Proof. induction l as [|x l IH]; simpl; [reflexivity|]. now rewrite IH. Qed.

(** ** Running [filter_movies] *)

Section Run.

Variable py : Python.

(** [st0] is the store at the call. *)
Variable st0 : store.

Local Abbreviation stage_ok := (stage_ok st0).
Local Abbreviation stage_stops := (stage_stops st0).

Lemma stage_ret st l d :
  st0 ⊆ st -> st0 !! l = None -> st !! l = Some d -> stage_ok (ret l) st d.
Proof. intros H1 H2 H3. exists l, st. auto. Qed.

Lemma stage_alloc (c : M loc) st d :
  st0 ⊆ st ->
  c st = (Ok (fresh (dom st)), <[fresh (dom st) := d]> st) ->
  stage_ok c st d.
Proof.
  intros H1 Hc. exists (fresh (dom st)), (<[fresh (dom st) := d]> st).
  split; [exact Hc|]. split; [|split].
  - etrans; [exact H1|apply alloc_extends].
  - eapply lookup_weaken_None; [apply fresh_unbound|exact H1].
  - apply lookup_insert_eq.
Qed.

(** A string step: the column, its accessor, the mask of the pattern,
    the selection.  [prepare] is what the step does to the column before
    it matches, [prepared] the same on one cell. *)
Lemma text_stage st l d dtype field pat ic
    (prepare : list (option str) -> list (option str))
    (prepared : option str -> option str) :
  (forall col, prepare col = map prepared col) ->
  st0 ⊆ st -> st !! l = Some d ->
  let c :=
    let* col := Pandas.text_column dtype field l in
    let* texts := Pandas.str_accessor col in
    let* mask := Pandas.str_contains py (prepare texts) pat (negb ic) false in
    Pandas.getitem l mask in
  match step_error py (dtype d) ic (Some pat) with
  | None =>
      stage_ok c st
        (with_rows d
           (List.filter
              (fun m => found_by py ic (Some pat) (prepared (field m)))
              (rows d)))
  | Some e => stage_stops c st (Raise e)
  end.
Proof.
  intros Hprep H1 H3 c. subst c. unfold step_error.
  assert (Hrun : forall k : list (option str) -> M loc,
            (let* col := Pandas.text_column dtype field l in
             let* texts := Pandas.str_accessor col in k texts) st
            = if dtype d then k (map field (rows d)) st
              else (Raise AttributeError, st)).
  { intros k.
    rewrite (bind_ok _ _ _ _ _ (text_column_run dtype field _ _ _ H3)).
    unfold Pandas.str_accessor. cbn [Pandas.text_dtype Pandas.cells].
    now destruct (dtype d). }
  destruct (dtype d).
  - destruct (Re.engine py pat ic) as [found|] eqn:Hc.
    + apply stage_alloc; [exact H1|]. rewrite Hrun.
      unfold Pandas.str_contains. rewrite negb_involutive, Hc.
      unfold bind at 1, ret at 1.
      rewrite (getitem_run _ _ _ _ H3), Hprep, !map_map. do 3 f_equal.
      rewrite <- select_map. f_equal. apply map_ext. intros m.
      unfold found_by. rewrite Hc. now destruct (prepared (field m)).
    + exists st. split; [|exact H1]. rewrite Hrun.
      unfold Pandas.str_contains. now rewrite negb_involutive, Hc.
  - exists st. split; [|exact H1]. now rewrite Hrun.
Qed.

Lemma genre_stage st l d genres :
  st0 ⊆ st -> st0 !! l = None -> st !! l = Some d ->
  let c :=
    if truthy (List.filter (fun g => negb (Text.eqb g (u "All"))) genres) then
      let pattern :=
        Text.join (u "|")
          (List.filter (fun g => negb (Text.eqb g (u "All"))) genres) in
      let* col := Pandas.text_column genre_text Genre l in
      let* texts := Pandas.str_accessor col in
      let* mask := Pandas.str_contains py texts pattern false false in
      Pandas.getitem l mask
    else ret l in
  match step_error py (genre_text d) true (genre_pattern genres) with
  | None =>
      stage_ok c st (with_rows d (List.filter (pass_genre py genres) (rows d)))
  | Some e => stage_stops c st (Raise e)
  end.
Proof.
  intros H1 H2 H3 c. subst c. unfold pass_genre, genre_pattern, selected_genres.
  destruct (truthy _); cbv beta zeta.
  - refine (text_stage st l d genre_text Genre _ true (fun col => col)
              (fun cell => cell) _ H1 H3).
    intros col. symmetry. apply map_id.
  - cbn [step_error found_by]. rewrite filter_all, with_rows_same.
    now apply stage_ret.
Qed.

Lemma rating_stage st l d rating :
  st0 ⊆ st -> st0 !! l = None -> st !! l = Some d ->
  stage_ok
    (if (0 <? rating)%Z then
       let* col := Pandas.column Rating l in
       Pandas.getitem l
         (Pandas.mask_and (Pandas.ge col rating) (Pandas.lt col (rating + 1)))
     else ret l)
    st (with_rows d (List.filter (keep_rating rating) (rows d))).
Proof.
  intros H1 H2 H3. unfold keep_rating.
  destruct (0 <? rating)%Z.
  - apply stage_alloc; [exact H1|].
    rewrite (bind_ok _ _ _ _ _ (column_run Rating _ _ _ H3)).
    rewrite (getitem_run _ _ _ _ H3). do 4 f_equal.
    unfold Pandas.ge, Pandas.lt. rewrite mask_and_map, map_map.
    rewrite <- select_map. f_equal. apply map_ext. intros m.
    unfold in_band. now destruct (Rating m).
  - rewrite filter_all, with_rows_same. now apply stage_ret.
Qed.

Lemma title_stage st l d search_query :
  st0 ⊆ st -> st0 !! l = None -> st !! l = Some d ->
  let c :=
    if truthy search_query then
      let* col := Pandas.text_column title_text Title l in
      let* texts := Pandas.str_accessor col in
      let* lowered := Pandas.str_accessor (Pandas.str_lower py texts) in
      let* mask :=
        Pandas.str_contains py lowered (Text.lower py search_query)
                            true false in
      Pandas.getitem l mask
    else ret l in
  match step_error py (title_text d) false (query_pattern py search_query) with
  | None =>
      stage_ok c st
        (with_rows d (List.filter (pass_title py search_query) (rows d)))
  | Some e => stage_stops c st (Raise e)
  end.
Proof.
  intros H1 H2 H3 c. subst c. unfold pass_title, query_pattern.
  destruct (truthy _); cbv beta zeta.
  - refine (text_stage st l d title_text Title (Text.lower py search_query)
              false (map (option_map (Text.lower py)))
              (option_map (Text.lower py)) _ H1 H3).
    reflexivity.
  - cbn [step_error found_by]. rewrite filter_all, with_rows_same.
    now apply stage_ret.
Qed.

End Run.

(** What a call returns and what it leaves behind, for every outcome. *)
Lemma filter_movies_run py (st : store) self d genres rating search_query :
  st !! df self = Some d ->
  exists st', st ⊆ st' /\
    match expected_view py d genres rating search_query with
    | Ok out =>
        exists l, filter_movies py self genres rating search_query st
                  = (Ok l, st')
                  /\ st !! l = None /\ st' !! l = Some (with_rows d out)
    | Raise e =>
        filter_movies py self genres rating search_query st = (Raise e, st')
    | Outside =>
        filter_movies py self genres rating search_query st = (Outside, st')
    end.
Proof.
  intros Hd. unfold filter_movies, expected_view, call_error.
  rewrite (bind_ok _ _ _ _ _ (copy_run _ _ _ Hd)).
  pose proof (alloc_extends st d) as H1.
  pose proof (fresh_unbound st) as Hn1.
  assert (Hl1 : <[fresh (dom st) := d]> st !! fresh (dom st) = Some d)
    by apply lookup_insert_eq.
  pose proof (genre_stage py st _ _ _ genres H1 Hn1 Hl1) as Hg. simpl in Hg.
  destruct (step_error py (genre_text d) true (genre_pattern genres)) as [e|].
  { destruct Hg as (st2 & Hrun2 & H2). exists st2. split; [exact H2|].
    now apply bind_raise. }
  destruct Hg as (l2 & st2 & Hrun2 & H2 & Hn2 & Hl2).
  rewrite (bind_ok _ _ _ _ _ Hrun2).
  destruct (rating_stage st _ _ _ rating H2 Hn2 Hl2)
    as (l3 & st3 & Hrun3 & H3 & Hn3 & Hl3).
  rewrite (bind_ok _ _ _ _ _ Hrun3).
  pose proof (title_stage py st _ _ _ search_query H3 Hn3 Hl3) as Hq.
  simpl in Hq.
  destruct (step_error py (title_text d) false (query_pattern py search_query))
    as [e|].
  { destruct Hq as (st4 & Hrun4 & H4). exists st4. split; [exact H4|].
    now apply bind_raise. }
  destruct Hq as (l4 & st4 & Hrun4 & H4 & Hn4 & Hl4).
  rewrite (bind_ok _ _ _ _ _ Hrun4).
  rewrite (sort_values_run _ _ _ Hl4).
  eexists. split; [etrans; [exact H4|apply alloc_extends]|].
  exists (fresh (dom st4)). split; [reflexivity|]. split.
  - eapply lookup_weaken_None; [apply fresh_unbound|exact H4].
  - rewrite lookup_insert_eq. cbn [rows with_rows genre_text title_text].
    rewrite !filter_filter. reflexivity.
Qed.

Lemma filter_movies_view py (st : store) self d genres rating search_query :
  st !! df self = Some d ->
  view_of (filter_movies py self genres rating search_query st)
  = expected_view py d genres rating search_query.
Proof.
  intros Hd.
  destruct (filter_movies_run py st self d genres rating search_query Hd)
    as (st' & _ & H).
  destruct (expected_view py d genres rating search_query) as [out|e|].
  - destruct H as (l & -> & _ & Hl). simpl. now rewrite Hl.
  - now rewrite H.
  - now rewrite H.
Qed.

(** The two outcomes of a call. *)
Lemma expected_view_cases py d genres rating search_query :
  if call_raises py d genres search_query
  then exists e, expected_view py d genres rating search_query = Raise e
  else expected_view py d genres rating search_query
       = Ok (Pandas.lexsort
               (List.filter (passes py genres rating search_query) (rows d))).
Proof.
  unfold call_raises, step_raises, expected_view, call_error.
  destruct (step_error py (genre_text d) true (genre_pattern genres)) as [e|];
    cbn [orb]; [now exists e|].
  destruct (step_error py (title_text d) false (query_pattern py search_query))
    as [e|]; [now exists e|reflexivity].
Qed.

Lemma expected_view_ok py d genres rating search_query :
  call_raises py d genres search_query = false ->
  expected_view py d genres rating search_query
  = Ok (Pandas.lexsort
          (List.filter (passes py genres rating search_query) (rows d))).
Proof.
  intros H. pose proof (expected_view_cases py d genres rating search_query) as E.
  now rewrite H in E.
Qed.

(** ** Stable sorting *)

Section StableSortFacts.

Context {A : Type} (before : A -> A -> bool).

Local Abbreviation insert := (Pandas.insert before).
Local Abbreviation sort := (Pandas.stable_sort before).

Lemma insert_perm x l : Permutation (insert x l) (x :: l).
Proof.
  induction l as [|y l IH]; simpl; [reflexivity|].
  destruct (before y x); [|reflexivity].
  rewrite IH. apply perm_swap.
Qed.

Lemma stable_sort_perm l : Permutation (sort l) l.
Proof.
  induction l as [|x l IH]; simpl; [reflexivity|].
  rewrite insert_perm. now constructor.
Qed.

(** Rows outside a class do not disturb the class. *)
Lemma filter_insert_out (p : A -> bool) x l :
  p x = false -> List.filter p (insert x l) = List.filter p l.
Proof.
  intros Hx. induction l as [|y l IH]; simpl.
  - now rewrite Hx.
  - destruct (before y x); simpl; [now rewrite IH|now rewrite Hx].
Qed.

(** A row that ties with every member of its class stays ahead of the
    members inserted before it, that is, of those that followed it. *)
Lemma filter_insert_in (p : A -> bool) x l :
  p x = true ->
  (forall y, In y l -> p y = true -> before y x = false) ->
  List.filter p (insert x l) = x :: List.filter p l.
Proof.
  intros Hx. induction l as [|y l IH]; intros Hties; simpl.
  - now rewrite Hx.
  - destruct (before y x) eqn:Hyx; simpl.
    + destruct (p y) eqn:Hy.
      * rewrite (Hties y (or_introl Logic.eq_refl) Hy) in Hyx. discriminate.
      * apply IH. intros z Hz. apply Hties. now right.
    + now rewrite Hx.
Qed.

Lemma stable_sort_class (p : A -> bool) l :
  (forall a b, p a = true -> p b = true -> before a b = false) ->
  List.filter p (sort l) = List.filter p l.
Proof.
  intros Hties. induction l as [|x l IH]; simpl; [reflexivity|].
  destruct (p x) eqn:Hx.
  - rewrite filter_insert_in; [now rewrite IH|exact Hx|].
    intros y _ Hy. now apply Hties.
  - rewrite filter_insert_out; [exact IH|exact Hx].
Qed.

Hypothesis before_asym : forall a b, before a b = true -> before b a = false.
Hypothesis before_chain :
  forall a b c, before b a = false -> before c b = false -> before c a = false.

(** A second pass, over rows already in order [R]. *)
Variable R : A -> A -> Prop.

Local Abbreviation refined := (refined before R).

Lemma insert_refined x l :
  StronglySorted refined l -> Forall (R x) l ->
  StronglySorted refined (insert x l).
Proof.
  induction l as [|y l IH]; intros Hs Hx; simpl.
  - repeat constructor.
  - apply StronglySorted_inv in Hs as [Hs Hy].
    apply Forall_cons_iff in Hx as [Hxy Hx].
    destruct (before y x) eqn:Hyx.
    + constructor; [now apply IH|].
      eapply Permutation_Forall; [symmetry; apply insert_perm|].
      constructor; [|exact Hy].
      split; [now apply before_asym|]. intros H. rewrite H in Hyx.
      discriminate.
    + constructor; [now constructor|].
      constructor; [split; [exact Hyx|now intros _]|].
      rewrite Forall_forall in Hy, Hx |- *. intros z Hz.
      split; [|intros _; now apply Hx].
      destruct (Hy z Hz) as [Hzy _]. now apply before_chain with y.
Qed.

Lemma stable_sort_refines l :
  StronglySorted R l -> StronglySorted refined (sort l).
Proof.
  induction l as [|x l IH]; intros Hs; simpl; [constructor|].
  apply StronglySorted_inv in Hs as [Hs Hx].
  apply insert_refined; [now apply IH|].
  eapply Permutation_Forall; [symmetry; apply stable_sort_perm|exact Hx].
Qed.

End StableSortFacts.

(** ** The two keys of [sort_values] *)

Section DescendingKey.

Context {K : Type} (ltb : K -> K -> bool).

Hypothesis ltb_asym : forall x y, ltb x y = true -> ltb y x = false.
Hypothesis ltb_chain :
  forall x y z, ltb x y = false -> ltb y z = false -> ltb x z = false.

Lemma desc_before_asym a b :
  Pandas.desc_before ltb a b = true -> Pandas.desc_before ltb b a = false.
Proof.
  destruct a as [x|], b as [y|]; simpl; try easy. apply ltb_asym.
Qed.

Lemma desc_before_chain a b c :
  Pandas.desc_before ltb b a = false -> Pandas.desc_before ltb c b = false ->
  Pandas.desc_before ltb c a = false.
Proof.
  destruct a as [x|], b as [y|], c as [z|]; simpl; try easy.
  apply ltb_chain.
Qed.

End DescendingKey.

Lemma Qltb_lt x y : Pandas.Qltb x y = true <-> (x < y)%Q.
Proof.
  unfold Pandas.Qltb. rewrite negb_true_iff, <- not_true_iff_false.
  rewrite Qle_bool_iff. split; [apply Qnot_le_lt|apply Qlt_not_le].
Qed.

Lemma Qltb_ge x y : Pandas.Qltb x y = false <-> (y <= x)%Q.
Proof.
  unfold Pandas.Qltb. rewrite negb_false_iff. apply Qle_bool_iff.
Qed.

Lemma year_before_asym a b :
  Pandas.year_before a b = true -> Pandas.year_before b a = false.
Proof. apply desc_before_asym. intros x y. lia. Qed.

Lemma year_before_chain a b c :
  Pandas.year_before b a = false -> Pandas.year_before c b = false ->
  Pandas.year_before c a = false.
Proof. apply desc_before_chain. intros x y z. lia. Qed.

Lemma rating_before_asym a b :
  Pandas.rating_before a b = true -> Pandas.rating_before b a = false.
Proof.
  apply desc_before_asym. intros x y. rewrite Qltb_lt, Qltb_ge.
  apply Qlt_le_weak.
Qed.

Lemma rating_before_chain a b c :
  Pandas.rating_before b a = false -> Pandas.rating_before c b = false ->
  Pandas.rating_before c a = false.
Proof.
  apply desc_before_chain. intros x y z. rewrite !Qltb_ge.
  intros H1 H2. now apply Qle_trans with y.
Qed.

Lemma StronglySorted_weaken {A} (R S : A -> A -> Prop) l :
  (forall a b, R a b -> S a b) -> StronglySorted R l -> StronglySorted S l.
Proof.
  intros HRS. induction 1 as [|x l Hs IH Hx]; constructor; [exact IH|].
  rewrite Forall_forall in Hx |- *. intros b Hb. now apply HRS, Hx.
Qed.

(** One pass leaves the rows in the order of its key. *)
Lemma stable_sort_sorted {A} (before : A -> A -> bool) l :
  (forall a b, before a b = true -> before b a = false) ->
  (forall a b c, before b a = false -> before c b = false ->
                 before c a = false) ->
  StronglySorted (fun a b => before b a = false) (Pandas.stable_sort before l).
Proof.
  intros Hasym Hchain.
  assert (Htriv : StronglySorted (fun _ _ : A => True) l).
  { induction l; constructor; [assumption|]. now apply Forall_forall. }
  apply (stable_sort_refines before Hasym Hchain) in Htriv.
  eapply StronglySorted_weaken; [|exact Htriv]. now intros a b [H _].
Qed.

(** From the boolean order of the two passes to the order of the
    specification. *)
Lemma rating_order a b :
  Pandas.rating_before b a = false ->
  cell_gt Qlt (Rating a) (Rating b) \/ cell_eq Qeq (Rating a) (Rating b).
Proof.
  unfold Pandas.rating_before.
  destruct (Rating a) as [p|], (Rating b) as [q|]; simpl; intros H.
  - apply Qltb_ge in H.
    destruct (Qlt_le_dec q p) as [Hlt|Hle]; [now left|right].
    now apply Qle_antisym.
  - now left.
  - discriminate.
  - now right.
Qed.

Lemma refined_in_order a b :
  refined Pandas.year_before
          (fun a b => Pandas.rating_before b a = false) a b ->
  in_order a b.
Proof.
  unfold refined, in_order. intros [Hy Hr].
  unfold Pandas.year_before in Hy, Hr.
  destruct (Year a) as [x|], (Year b) as [y|]; simpl in *.
  - destruct (Z.lt_trichotomy y x) as [Hlt|[Heq|Hgt]]; [now left| |lia].
    right. split; [now symmetry|]. apply rating_order, Hr. lia.
  - now left.
  - discriminate.
  - right. split; [exact I|]. now apply rating_order, Hr.
Qed.

Lemma lexsort_sorted d : StronglySorted in_order (Pandas.lexsort d).
Proof.
  unfold Pandas.lexsort.
  eapply StronglySorted_weaken; [exact refined_in_order|].
  apply stable_sort_refines;
    [exact year_before_asym|exact year_before_chain|].
  apply stable_sort_sorted;
    [exact rating_before_asym|exact rating_before_chain].
Qed.

Lemma lexsort_perm d : Permutation (Pandas.lexsort d) d.
Proof.
  unfold Pandas.lexsort. now rewrite !stable_sort_perm.
Qed.

Lemma same_key_year k a b :
  same_key k a = true -> same_key k b = true -> Pandas.year_before a b = false.
Proof.
  unfold same_key, Pandas.year_before. rewrite !andb_true_iff.
  intros [Ha _] [Hb _].
  destruct (Year k), (Year a), (Year b); simpl in *; try easy. lia.
Qed.

Lemma same_key_rating k a b :
  same_key k a = true -> same_key k b = true ->
  Pandas.rating_before a b = false.
Proof.
  unfold same_key, Pandas.rating_before. rewrite !andb_true_iff.
  intros [_ Ha] [_ Hb].
  destruct (Rating k), (Rating a), (Rating b); simpl in *; try easy.
  apply Qeq_bool_iff in Ha, Hb. apply Qltb_ge. rewrite <- Ha, <- Hb.
  apply Qle_refl.
Qed.

(** Both passes keep the rows of one (Year, Rating) class in the order
    in which they arrived. *)
Lemma lexsort_stable k d :
  List.filter (same_key k) (Pandas.lexsort d) = List.filter (same_key k) d.
Proof.
  unfold Pandas.lexsort.
  rewrite stable_sort_class by apply same_key_year.
  apply stable_sort_class, same_key_rating.
Qed.

(** ** The view is determined by its order and its stability *)

Lemma same_key_refl k : same_key k k = true.
Proof.
  unfold same_key. destruct (Year k), (Rating k); simpl;
    rewrite ?Z.eqb_refl; try reflexivity; now apply Qeq_bool_iff.
Qed.

Lemma same_key_sym a b : same_key a b = same_key b a.
Proof.
  unfold same_key. f_equal.
  - destruct (Year a), (Year b); try reflexivity. apply Z.eqb_sym.
  - destruct (Rating a), (Rating b); try reflexivity.
    apply eq_true_iff_eq. rewrite !Qeq_bool_iff.
    split; intros H; now symmetry.
Qed.

Lemma rating_both (p q : option Q) :
  cell_gt Qlt p q \/ cell_eq Qeq p q ->
  cell_gt Qlt q p \/ cell_eq Qeq q p ->
  match p, q with
  | Some x, Some y => Qeq_bool x y
  | None, None => true
  | _, _ => false
  end = true.
Proof.
  destruct p as [x|], q as [y|]; simpl.
  - intros [H1|H1] [H2|H2]; apply Qeq_bool_iff;
      try assumption; try (now symmetry).
    exfalso. apply (Qlt_irrefl x). now apply Qlt_trans with y.
  - intros _ [[]|[]].
  - intros [[]|[]].
  - reflexivity.
Qed.

Lemma in_order_both a b : in_order a b -> in_order b a -> same_key a b = true.
Proof.
  unfold in_order, same_key. intros Hab Hba. apply andb_true_iff.
  destruct (Year a) as [x|], (Year b) as [y|]; simpl in *.
  - destruct Hab as [Hab|[-> Hab]].
    + destruct Hba as [Hba|[-> _]]; lia.
    + destruct Hba as [Hba|[_ Hba]]; [lia|].
      split; [apply Z.eqb_refl|now apply rating_both].
  - destruct Hba as [[]|[[] _]].
  - destruct Hab as [[]|[[] _]].
  - destruct Hab as [[]|[_ Hab]]. destruct Hba as [[]|[_ Hba]].
    split; [reflexivity|now apply rating_both].
Qed.

Lemma StronglySorted_filter {A} (R : A -> A -> Prop) (p : A -> bool) l :
  StronglySorted R l -> StronglySorted R (List.filter p l).
Proof.
  induction 1 as [|x l Hs IH Hx]; simpl; [constructor|].
  destruct (p x); [|exact IH]. constructor; [exact IH|].
  rewrite Forall_forall in Hx |- *. intros y Hy. apply Hx.
  apply list_elem_of_In. apply list_elem_of_In in Hy.
  now apply filter_In in Hy as [Hy _].
Qed.

Lemma filter_comm {A} (p q : A -> bool) l :
  List.filter p (List.filter q l) = List.filter q (List.filter p l).
Proof.
  rewrite !filter_filter. apply List.filter_ext. intros x. apply andb_comm.
Qed.

(** Two arrangements that are both in order and list every (Year,
    Rating) class alike are the same arrangement. *)
Lemma in_order_unique (l1 l2 : Rows) :
  StronglySorted in_order l1 -> StronglySorted in_order l2 ->
  (forall k, List.filter (same_key k) l1 = List.filter (same_key k) l2) ->
  l1 = l2.
Proof.
  revert l2. induction l1 as [|a l1 IH]; intros l2 H1 H2 Hk.
  - destruct l2 as [|b l2]; [reflexivity|].
    specialize (Hk b). simpl in Hk. rewrite same_key_refl in Hk.
    discriminate.
  - destruct l2 as [|b l2].
    { specialize (Hk a). simpl in Hk. rewrite same_key_refl in Hk.
      discriminate. }
    apply StronglySorted_inv in H1 as [H1 Ha].
    apply StronglySorted_inv in H2 as [H2 Hb].
    assert (Hab : same_key a b = true).
    { destruct (same_key a b) eqn:E; [reflexivity|].
      pose proof (Hk a) as Hka. simpl in Hka.
      rewrite same_key_refl, E in Hka.
      assert (Hina : In a l2).
      { assert (H : In a (List.filter (same_key a) l2))
          by (rewrite <- Hka; now left).
        now apply filter_In in H as [H _]. }
      pose proof (Hk b) as Hkb. simpl in Hkb.
      rewrite same_key_refl, same_key_sym, E in Hkb.
      assert (Hinb : In b l1).
      { assert (H : In b (List.filter (same_key b) l1))
          by (rewrite Hkb; now left).
        now apply filter_In in H as [H _]. }
      rewrite Forall_forall in Ha, Hb.
      rewrite <- E. apply in_order_both.
      - apply Ha. now apply list_elem_of_In.
      - apply Hb. now apply list_elem_of_In. }
    assert (a = b).
    { pose proof (Hk a) as Hka. simpl in Hka.
      rewrite same_key_refl, Hab in Hka. now injection Hka. }
    subst b. f_equal. apply IH; [exact H1|exact H2|].
    intros k. specialize (Hk k). simpl in Hk.
    destruct (same_key k a); [now injection Hk|exact Hk].
Qed.

(** Sorting and filtering commute, and sorting twice is sorting once. *)
Lemma lexsort_filter (p : Movie -> bool) d :
  Pandas.lexsort (List.filter p d) = List.filter p (Pandas.lexsort d).
Proof.
  apply in_order_unique.
  - apply lexsort_sorted.
  - apply StronglySorted_filter, lexsort_sorted.
  - intros k. rewrite lexsort_stable.
    rewrite (filter_comm (same_key k) p (Pandas.lexsort d)), lexsort_stable.
    apply filter_comm.
Qed.

Lemma lexsort_idem d : Pandas.lexsort (Pandas.lexsort d) = Pandas.lexsort d.
Proof.
  apply in_order_unique; try apply lexsort_sorted.
  intros k. now rewrite !lexsort_stable.
Qed.

(** ** The matcher computes the language of the pattern *)

Section Matching.

Variable py : Python.
Variable ic : bool.

Import Re.

Lemma Matches_Eps s : Matches py ic Eps s <-> s = [].
Proof. split; [now inversion 1|intros ->; constructor]. Qed.

Lemma Matches_Chr c s :
  Matches py ic (Chr c) s <-> exists d, s = [d] /\ chr_eq py ic c d = true.
Proof.
  split; [inversion 1; subst; eauto|intros (d & -> & H); now constructor].
Qed.

Lemma Matches_Any s :
  Matches py ic Any s <-> exists d, s = [d] /\ d <> newline.
Proof.
  split; [inversion 1; subst; eauto|intros (d & -> & H); now constructor].
Qed.

Lemma Matches_Seq r1 r2 s :
  Matches py ic (Seq r1 r2) s
  <-> exists s1 s2, s = s1 ++ s2 /\ Matches py ic r1 s1 /\ Matches py ic r2 s2.
Proof.
  split; [inversion 1; subst; eauto|].
  intros (s1 & s2 & -> & H1 & H2). now constructor.
Qed.

Lemma Matches_Alt r1 r2 s :
  Matches py ic (Alt r1 r2) s <-> Matches py ic r1 s \/ Matches py ic r2 s.
Proof.
  split; [inversion 1; subst; auto|].
  intros [H|H]; [now apply MAltL|now apply MAltR].
Qed.

(** A non-empty word of a starred pattern starts with a non-empty word
    of the pattern. *)
Lemma Matches_Star_cons r d s :
  Matches py ic (Star r) (d :: s) ->
  exists s1 s2, s = s1 ++ s2 /\ Matches py ic r (d :: s1)
                /\ Matches py ic (Star r) s2.
Proof.
  intros H. remember (Star r) as r0 eqn:Hr. remember (d :: s) as w eqn:Hw.
  revert d s Hw.
  induction H as [| | | | | | |r' s1 s2 H1 _ H2 IH2]; try discriminate.
  injection Hr as ->. intros d s Hw.
  destruct s1 as [|c s1]; simpl in Hw.
  - now apply IH2.
  - injection Hw as -> <-. now exists s1, s2.
Qed.

Lemma nullable_spec r : nullable r = true <-> Matches py ic r [].
Proof.
  induction r as [|c| |r1 IH1 r2 IH2|r1 IH1 r2 IH2|r IH]; simpl.
  - now rewrite Matches_Eps.
  - rewrite Matches_Chr. split; [discriminate|]. now intros (d & ? & _).
  - rewrite Matches_Any. split; [discriminate|]. now intros (d & ? & _).
  - rewrite andb_true_iff, IH1, IH2, Matches_Seq. split.
    + intros [H1 H2]. now exists [], [].
    + intros (s1 & s2 & Hs & H1 & H2). symmetry in Hs.
      apply app_eq_nil in Hs as [-> ->]. now split.
  - now rewrite orb_true_iff, IH1, IH2, Matches_Alt.
  - split; [constructor|reflexivity].
Qed.

Lemma union_spec a b s :
  OMatches py ic (union a b) s <-> OMatches py ic a s \/ OMatches py ic b s.
Proof.
  unfold OMatches. destruct a as [x|], b as [y|]; simpl.
  - split.
    + intros (r & [= <-] & H). apply Matches_Alt in H as [H|H]; eauto.
    + intros [(r & [= <-] & H)|(r & [= <-] & H)];
        (eexists; split; [reflexivity|]); apply Matches_Alt; auto.
  - split; [auto|]. now intros [H|(r & ? & _)].
  - split; [auto|]. now intros [(r & ? & _)|H].
  - split; [auto|]. now intros [H|H].
Qed.

Lemma then_spec o r2 s :
  OMatches py ic (option_map (fun r1 => Seq r1 r2) o) s
  <-> exists s1 s2, s = s1 ++ s2 /\ OMatches py ic o s1 /\ Matches py ic r2 s2.
Proof.
  unfold OMatches. destruct o as [x|]; simpl.
  - split.
    + intros (r & [= <-] & H). apply Matches_Seq in H
        as (s1 & s2 & -> & H1 & H2). eauto 7.
    + intros (s1 & s2 & -> & (r & [= <-] & H1) & H2).
      eexists; split; [reflexivity|]. now constructor.
  - split; [now intros (r & ? & _)|].
    now intros (s1 & s2 & _ & (r & ? & _) & _).
Qed.

Lemma deriv_spec d r s :
  OMatches py ic (deriv py ic d r) s <-> Matches py ic r (d :: s).
Proof.
  revert s.
  induction r as [|c| |r1 IH1 r2 IH2|r1 IH1 r2 IH2|r IH]; intros s; simpl.
  - rewrite Matches_Eps. split; [now intros (r & ? & _)|discriminate].
  - rewrite Matches_Chr. unfold OMatches.
    destruct (chr_eq py ic c d) eqn:E.
    + split.
      * intros (r & [= <-] & H). apply Matches_Eps in H as ->. eauto.
      * intros (d' & [= <- ->] & _). eexists; split; [reflexivity|].
        constructor.
    + split; [now intros (r & ? & _)|].
      intros (d' & [= <- ->] & H). congruence.
  - rewrite Matches_Any. unfold OMatches.
    destruct (N.eqb_spec d newline) as [->|Hne].
    + split; [now intros (r & ? & _)|]. now intros (d' & [= <- ->] & H).
    + split.
      * intros (r & [= <-] & H). apply Matches_Eps in H as ->. eauto.
      * intros (d' & [= <- ->] & _). eexists; split; [reflexivity|].
        constructor.
  - rewrite Matches_Seq.
    assert (Hleft :
      OMatches py ic (option_map (fun r1' => Seq r1' r2) (deriv py ic d r1)) s
      <-> exists s1 s2, s = s1 ++ s2 /\ Matches py ic r1 (d :: s1)
                        /\ Matches py ic r2 s2).
    { rewrite then_spec. split; intros (s1 & s2 & -> & H1 & H2);
        exists s1, s2; (split; [reflexivity|]); split; auto;
        now apply IH1. }
    destruct (nullable r1) eqn:N.
    + rewrite union_spec, Hleft, IH2. split.
      * intros [(s1 & s2 & -> & H1 & H2)|H].
        -- now exists (d :: s1), s2.
        -- exists [], (d :: s). split; [reflexivity|].
           split; [now apply nullable_spec|exact H].
      * intros (t1 & t2 & Ht & H1 & H2). destruct t1 as [|c t1].
        -- simpl in Ht. subst t2. now right.
        -- injection Ht as <- ->. left. now exists t1, t2.
    + rewrite Hleft. split.
      * intros (s1 & s2 & -> & H1 & H2). now exists (d :: s1), s2.
      * intros (t1 & t2 & Ht & H1 & H2). destruct t1 as [|c t1].
        -- apply nullable_spec in H1. congruence.
        -- injection Ht as <- ->. now exists t1, t2.
  - now rewrite union_spec, IH1, IH2, Matches_Alt.
  - rewrite then_spec. split.
    + intros (s1 & s2 & -> & H1 & H2). apply IH in H1.
      now apply (MStarS py ic r (d :: s1) s2).
    + intros H. apply Matches_Star_cons in H as (s1 & s2 & -> & H1 & H2).
      exists s1, s2. split; [reflexivity|]. split; [now apply IH|exact H2].
Qed.

Lemma match_prefix_spec r s :
  match_prefix py ic r s = true
  <-> exists p q, s = p ++ q /\ Matches py ic r p.
Proof.
  revert r. induction s as [|d s IH]; intros r; simpl.
  - rewrite orb_false_r, nullable_spec. split.
    + intros H. now exists [], [].
    + intros (p & q & Hs & H). symmetry in Hs.
      apply app_eq_nil in Hs as [-> _]. exact H.
  - rewrite orb_true_iff, nullable_spec. split.
    + intros [H|H]; [now exists [], (d :: s)|].
      destruct (deriv py ic d r) as [r'|] eqn:E; [|discriminate].
      apply IH in H as (p & q & -> & H). exists (d :: p), q.
      split; [reflexivity|]. apply deriv_spec. now exists r'.
    + intros (p & q & Hs & H). destruct p as [|c p]; [now left|right].
      injection Hs as <- ->. apply deriv_spec in H as (r' & -> & H).
      apply IH. now exists p, q.
Qed.

Lemma search_spec r s :
  search py ic r s = true
  <-> exists a p q, s = a ++ p ++ q /\ Matches py ic r p.
Proof.
  induction s as [|d s IH]; cbn [search].
  - rewrite orb_false_r, match_prefix_spec. split.
    + intros (p & q & Hs & H). now exists [], p, q.
    + intros (a & p & q & Hs & H). symmetry in Hs.
      apply app_eq_nil in Hs as [-> Hs]. eauto.
  - rewrite orb_true_iff, match_prefix_spec, IH. split.
    + intros [(p & q & Hs & H)|(a & p & q & -> & H)].
      * now exists [], p, q.
      * now exists (d :: a), p, q.
    + intros (a & p & q & Hs & H). destruct a as [|c a].
      * left. now exists p, q.
      * injection Hs as <- ->. right. now exists a, p, q.
Qed.

End Matching.

(** ** Text *)

Lemma text_eqb_eq a b : Text.eqb a b = true <-> a = b.
Proof.
  revert b. induction a as [|x a IH]; intros [|y b]; simpl;
    try (split; [discriminate|discriminate]); [tauto|].
  rewrite andb_true_iff, N.eqb_eq, IH. split.
  - now intros [-> ->].
  - now intros [= -> ->].
Qed.

Lemma starts_by_spec same p t :
  Text.starts_by same p t = true
  <-> exists p' b, t = p' ++ b /\ Forall2 (fun c d => same c d = true) p p'.
Proof.
  revert t. induction p as [|a p IH]; intros t; simpl.
  - split; [intros _; exists [], t; split; [reflexivity|constructor]|reflexivity].
  - destruct t as [|c t].
    + split; [discriminate|]. intros (p' & b & Ht & Hp).
      inversion Hp; subst. discriminate.
    + rewrite andb_true_iff, IH. split.
      * intros [Hac (p' & b & -> & Hp)]. exists (c :: p'), b.
        split; [reflexivity|now constructor].
      * intros (p' & b & Ht & Hp). inversion Hp as [|? d ? p'' Hd Hp']; subst.
        injection Ht as -> ->. split; [exact Hd|]. now exists p'', b.
Qed.

Lemma occurs_by_spec same p t :
  Text.occurs_by same p t = true
  <-> exists a p' b, t = a ++ p' ++ b
                     /\ Forall2 (fun c d => same c d = true) p p'.
Proof.
  induction t as [|c t IH]; cbn [Text.occurs_by].
  - rewrite orb_false_r, starts_by_spec. split.
    + intros (p' & b & Ht & Hp). now exists [], p', b.
    + intros (a & p' & b & Ht & Hp). symmetry in Ht.
      apply app_eq_nil in Ht as [-> Ht]. now exists p', b.
  - rewrite orb_true_iff, starts_by_spec, IH. split.
    + intros [(p' & b & Ht & Hp)|(a & p' & b & -> & Hp)].
      * now exists [], p', b.
      * now exists (c :: a), p', b.
    + intros (a & p' & b & Ht & Hp). destruct a as [|c' a].
      * left. now exists p', b.
      * injection Ht as <- ->. right. now exists a, p', b.
Qed.

Lemma Forall2_eqb (p p' : str) :
  Forall2 (fun c d => (c =? d)%N = true) p p' <-> p = p'.
Proof.
  split.
  - induction 1 as [|c d p p' Hcd _ IH]; [reflexivity|].
    apply N.eqb_eq in Hcd. now subst.
  - intros <-. induction p as [|c p IH]; constructor;
      [apply N.eqb_refl|exact IH].
Qed.

(** [contains] is the substring test. *)
Lemma contains_spec t p :
  Text.contains t p = true <-> exists a b, t = a ++ p ++ b.
Proof.
  unfold Text.contains. rewrite occurs_by_spec. split.
  - intros (a & p' & b & -> & Hp). apply Forall2_eqb in Hp as <-. eauto.
  - intros (a & b & ->). exists a, p, b. split; [reflexivity|].
    now apply Forall2_eqb.
Qed.

Lemma same_letter_refl py c : Text.same_letter py c c = true.
Proof. unfold Text.same_letter. now rewrite N.eqb_refl. Qed.

(** On ASCII texts the two readings of "case-insensitive substring"
    agree. *)
Lemma same_letter_ascii py c d :
  Text.is_ascii_char c = true -> Text.is_ascii_char d = true ->
  Text.same_letter py c d = (Text.lower_char c =? Text.lower_char d)%N.
Proof.
  intros Hc Hd. unfold Text.same_letter. rewrite Hc, Hd. simpl.
  destruct (N.eqb_spec c d) as [->|_]; [|reflexivity].
  now rewrite N.eqb_refl.
Qed.

Lemma starts_by_ascii py p t :
  Text.is_ascii p = true -> Text.is_ascii t = true ->
  Text.starts_by (Text.same_letter py) p t
  = Text.starts_by N.eqb (map Text.lower_char p) (map Text.lower_char t).
Proof.
  revert t. induction p as [|a p IH]; intros [|c t]; simpl; try reflexivity.
  rewrite !andb_true_iff. intros [Ha Hp] [Hc Ht].
  now rewrite same_letter_ascii, IH.
Qed.

Lemma contains_letters_ascii py t p :
  Text.is_ascii t = true -> Text.is_ascii p = true ->
  Text.contains_letters py t p = Text.contains_nocase py t p.
Proof.
  intros Ht Hp. unfold Text.contains_letters, Text.contains_nocase,
    Text.contains, Text.lower. rewrite Ht, Hp.
  induction t as [|c t IH]; cbn [Text.occurs_by map].
  - now rewrite starts_by_ascii.
  - simpl in Ht. apply andb_true_iff in Ht as [Hc Ht'].
    rewrite starts_by_ascii, IH; try assumption; [reflexivity|].
    simpl. now rewrite Hc, Ht'.
Qed.

Lemma classify_lower_letter (d : char) :
  (97 <= d <= 122)%N -> Re.classify d = Re.TLit.
Proof.
  intros H. destruct d as [|p]; [lia|].
  do 7 (destruct p as [p|p|]; try lia); reflexivity.
Qed.

Lemma lower_char_plain c : plain_char c -> plain_char (Text.lower_char c).
Proof.
  unfold plain_char, Text.lower_char, Text.is_upper. intros H.
  destruct ((65 <=? c) && (c <=? 90))%N eqn:E; [|exact H].
  apply andb_true_iff in E as [E1 E2].
  apply N.leb_le in E1, E2. apply classify_lower_letter. lia.
Qed.

Lemma lower_plain py s :
  Text.is_ascii s = true -> plain s -> plain (Text.lower py s).
Proof.
  unfold plain, Text.lower. intros -> H.
  apply Forall_map. eapply Forall_impl; [exact H|]. exact lower_char_plain.
Qed.

(** [split] cuts at every separator and at nothing else, and [strip]
    removes whitespace at both ends and nothing else. *)

Lemma split_nonempty sep l : Text.split sep l <> [].
Proof.
  destruct l as [|c l]; simpl; [discriminate|].
  destruct (c =? sep)%N; [discriminate|].
  destruct (Text.split sep l); discriminate.
Qed.

Lemma split_pieces sep s :
  Forall (fun piece => ~ In sep piece) (Text.split sep s).
Proof.
  induction s as [|c l IH]; simpl.
  - constructor; [|constructor]. now intros [].
  - destruct (N.eqb_spec c sep) as [->|Hc].
    + constructor; [now intros []|exact IH].
    + destruct (Text.split sep l) as [|piece pieces];
        [constructor; [|constructor]|].
      * simpl. intros [H|[]]. congruence.
      * apply Forall_cons_iff in IH as [Hp Hps].
        constructor; [|exact Hps].
        intros [H|H]; [congruence|contradiction].
Qed.

Lemma split_head sep l p ps :
  Text.split sep l = p :: ps -> exists rest, l = p ++ rest.
Proof.
  revert p ps. induction l as [|c l IH]; intros p ps; simpl.
  - intros [= <- _]. now exists [].
  - destruct (c =? sep)%N.
    + intros [= <- _]. now exists (c :: l).
    + destruct (Text.split sep l) as [|p' ps'] eqn:E.
      * intros [= <- _]. destruct (split_nonempty sep l E).
      * intros [= <- _]. destruct (IH p' ps' Logic.eq_refl) as (rest & ->).
        now exists rest.
Qed.

Lemma split_infix sep l piece :
  In piece (Text.split sep l) -> exists a b, l = a ++ piece ++ b.
Proof.
  revert piece. induction l as [|c l IH]; intros piece; simpl.
  - intros [<-|[]]. now exists [], [].
  - destruct (c =? sep)%N.
    + intros [<-|H]; [now exists [], (c :: l)|].
      destruct (IH piece H) as (a & b & ->). now exists (c :: a), b.
    + destruct (Text.split sep l) as [|p ps] eqn:E.
      * destruct (split_nonempty sep l E).
      * intros [<-|H].
        -- destruct (split_head sep l p ps E) as (rest & ->).
           now exists [], rest.
        -- destruct (IH piece (or_intror H)) as (a & b & ->).
           now exists (c :: a), b.
Qed.

Lemma lstrip_spec l :
  exists ws, l = ws ++ Text.lstrip l
             /\ Forall (fun c => Text.is_space c = true) ws
             /\ forall c rest, Text.lstrip l = c :: rest ->
                               Text.is_space c = false.
Proof.
  induction l as [|c l (ws & Hl & Hws & Hhd)]; simpl.
  - exists []. split; [reflexivity|]. split; [constructor|discriminate].
  - destruct (Text.is_space c) eqn:Hc.
    + exists (c :: ws). split; [simpl; now rewrite <- Hl|].
      split; [now constructor|exact Hhd].
    + exists []. split; [reflexivity|]. split; [constructor|].
      now intros c' rest [= <- _].
Qed.

Lemma strip_spec s :
  exists ws1 ws2,
    s = ws1 ++ Text.strip s ++ ws2
    /\ Forall (fun c => Text.is_space c = true) ws1
    /\ Forall (fun c => Text.is_space c = true) ws2
    /\ (forall c rest, Text.strip s = c :: rest -> Text.is_space c = false)
    /\ (forall c front, Text.strip s = front ++ [c] ->
                        Text.is_space c = false).
Proof.
  unfold Text.strip.
  destruct (lstrip_spec s) as (ws1 & H1 & Hws1 & Hhd1).
  set (l1 := Text.lstrip s) in *.
  destruct (lstrip_spec (rev l1)) as (ws2 & H2 & Hws2 & Hhd2).
  set (l2 := Text.lstrip (rev l1)) in *.
  assert (Hl1 : l1 = rev l2 ++ rev ws2).
  { rewrite <- rev_app_distr, <- H2. now rewrite rev_involutive. }
  exists ws1, (rev ws2). split; [now rewrite <- Hl1|].
  split; [exact Hws1|]. split; [|split].
  - apply Forall_forall. intros c Hc. rewrite Forall_forall in Hws2.
    apply Hws2. apply list_elem_of_In. apply list_elem_of_In in Hc.
    now apply in_rev.
  - intros c rest Hrev. apply (Hhd1 c (rest ++ rev ws2)).
    now rewrite Hl1, Hrev.
  - intros c front Hrev. apply (Hhd2 c (rev front)).
    rewrite <- (rev_involutive l2), Hrev, rev_app_distr. reflexivity.
Qed.

(** The order of [sorted]. *)
Lemma text_leb_refl a : Text.leb a a = true.
Proof.
  induction a as [|x a IH]; simpl; [reflexivity|].
  now rewrite N.ltb_irrefl.
Qed.

Lemma text_leb_total a b : Text.leb a b = true \/ Text.leb b a = true.
Proof.
  revert b. induction a as [|x a IH]; intros [|y b]; simpl; auto.
  destruct (N.ltb_spec x y), (N.ltb_spec y x); auto; lia.
Qed.

Lemma text_leb_trans a b c :
  Text.leb a b = true -> Text.leb b c = true -> Text.leb a c = true.
Proof.
  revert b c. induction a as [|x a IH]; intros [|y b] [|z c]; simpl;
    try reflexivity; try discriminate.
  destruct (N.ltb_spec x y), (N.ltb_spec y x), (N.ltb_spec y z),
    (N.ltb_spec z y), (N.ltb_spec x z), (N.ltb_spec z x);
    try reflexivity; try discriminate; try lia.
  apply IH.
Qed.

Lemma text_leb_antisym a b :
  Text.leb a b = true -> Text.leb b a = true -> a = b.
Proof.
  revert b. induction a as [|x a IH]; intros [|y b]; simpl;
    try reflexivity; try discriminate.
  destruct (N.ltb_spec x y), (N.ltb_spec y x); try discriminate; try lia.
  intros H1 H2. f_equal; [lia|now apply IH].
Qed.

#[global] Instance text_le_trans : Transitive Text.le.
Proof. intros a b c. apply text_leb_trans. Qed.

#[global] Instance text_le_total : Total Text.le.
Proof. intros a b. apply text_leb_total. Qed.

(** ** Patterns without metacharacters *)

Section PlainPatterns.

Import Re.

Lemma parse_plain cur stack w rest :
  Forall plain_char w ->
  parse cur stack (w ++ rest) = parse (feed cur w) stack rest.
Proof.
  intros Hw. revert cur.
  induction Hw as [|c w Hc _ IH]; intros cur; [reflexivity|].
  cbn [app parse]. unfold plain_char in Hc. rewrite Hc. apply IH.
Qed.

Lemma parse_words cur w ws :
  Forall plain_char w -> Forall (Forall plain_char) ws ->
  parse cur [] (w ++ flat_map (fun w' => 124%N :: w') ws)
  = Pattern (close_frame (feed_words cur w ws)).
Proof.
  intros Hw Hws. revert cur w Hw.
  induction Hws as [|w' ws Hw' _ IH]; intros cur w Hw; cbn [flat_map].
  - rewrite parse_plain by assumption. reflexivity.
  - rewrite parse_plain by assumption. cbn [app parse classify feed_words].
    now apply IH.
Qed.

Lemma items_feed f w :
  items (feed f w) = rev (map (fun c => (Chr c, false)) w) ++ items f.
Proof.
  revert f. induction w as [|c w IH]; intros f; simpl; [reflexivity|].
  unfold feed in *. simpl. rewrite IH. simpl.
  now rewrite <- app_assoc.
Qed.

Lemma alts_feed f w : alts (feed f w) = alts f.
Proof.
  revert f. induction w as [|c w IH]; intros f; [reflexivity|].
  unfold feed in *. simpl. now rewrite IH.
Qed.

Lemma seq_of_word w :
  seq_of (rev (map (fun c => (Chr c, false)) w)) = lit w.
Proof.
  unfold seq_of, lit. induction w as [|c w IH]; simpl; [reflexivity|].
  rewrite fold_left_app. simpl. now rewrite IH.
Qed.

Variable py : Python.
Variable ic : bool.

Lemma Matches_lit w s : Matches py ic (lit w) s <-> spells py ic w s.
Proof.
  unfold spells. revert s. induction w as [|c w IH]; intros s; simpl.
  - rewrite Matches_Eps. split; [intros ->; constructor|now inversion 1].
  - rewrite Matches_Seq. split.
    + intros (s1 & s2 & -> & H1 & H2).
      apply Matches_Chr in H1 as (d & -> & Hd). simpl.
      constructor; [exact Hd|now apply IH].
    + inversion 1 as [|c' d w' s' Hd Hws]; subst.
      exists [d], s'. split; [reflexivity|].
      split; [now constructor|now apply IH].
Qed.

Lemma Matches_alt_of done last s :
  Matches py ic (alt_of done last) s
  <-> Matches py ic last s \/ Exists (fun r => Matches py ic r s) done.
Proof.
  unfold alt_of. revert last.
  induction done as [|a done IH]; intros last; simpl.
  - split; [auto|]. intros [H|H]; [exact H|inversion H].
  - rewrite IH, Matches_Alt, Exists_cons. tauto.
Qed.

Lemma Matches_feed_words f w ws s :
  items f = [] ->
  Matches py ic (close_frame (feed_words f w ws)) s
  <-> Exists (fun r => Matches py ic r s) (alts f)
      \/ Exists (fun w' => spells py ic w' s) (w :: ws).
Proof.
  revert f w. induction ws as [|w' ws IH]; intros f w Hf; simpl.
  - unfold close_frame. rewrite Matches_alt_of, items_feed, alts_feed, Hf.
    rewrite app_nil_r, seq_of_word, Matches_lit, Exists_cons, Exists_nil.
    tauto.
  - rewrite IH by reflexivity. simpl.
    rewrite items_feed, alts_feed, Hf, app_nil_r, seq_of_word.
    rewrite !Exists_cons, Matches_lit. tauto.
Qed.

End PlainPatterns.

(** ** Plain tags and plain search text behave as substrings *)

Lemma join_bar t ts :
  Text.join (u "|") (t :: ts) = t ++ flat_map (fun w => 124%N :: w) ts.
Proof.
  revert t. induction ts as [|t' ts IH]; intros t.
  - simpl. now rewrite app_nil_r.
  - cbn [Text.join flat_map]. cbn [Text.join] in IH. now rewrite IH.
Qed.

(** A pattern made of plain tags joined by [|] compiles, and searching it
    finds exactly the texts in which one of the tags is spelled. *)
Lemma compile_plain_tags t ts :
  plain t -> Forall plain ts ->
  exists r, Re.compile (Text.join (u "|") (t :: ts)) = Re.Pattern r
            /\ forall py ic text,
                 Re.search py ic r text
                 = existsb (fun tag => Text.occurs_by (Re.chr_eq py ic) tag text)
                           (t :: ts).
Proof.
  intros Ht Hts.
  exists (Re.close_frame (Re.feed_words Re.empty_frame t ts)).
  split.
  - unfold Re.compile. rewrite join_bar. now apply parse_words.
  - intros py ic text. apply eq_true_iff_eq.
    rewrite search_spec, existsb_exists. split.
    + intros (a & p & b & Htext & Hm).
      apply Matches_feed_words in Hm as [Hm|Hm]; [inversion Hm| |reflexivity].
      apply List.Exists_exists in Hm as (tag & Htag & Hsp).
      exists tag. split; [exact Htag|].
      apply occurs_by_spec. now exists a, p, b.
    + intros (tag & Htag & Hocc).
      apply occurs_by_spec in Hocc as (a & p & b & Htext & Hsp).
      exists a, p, b. split; [exact Htext|].
      apply Matches_feed_words; [reflexivity|]. right.
      apply List.Exists_exists. now exists tag.
Qed.

Lemma engine_plain_tags py ic t ts :
  plain t -> Forall plain ts ->
  exists found,
    Re.engine py (Text.join (u "|") (t :: ts)) ic = Some found
    /\ forall text,
         found text
         = existsb (fun tag => Text.occurs_by (Re.chr_eq py ic) tag text)
                   (t :: ts).
Proof.
  intros Ht Hts. destruct (compile_plain_tags t ts Ht Hts) as (r & Hc & Hr).
  exists (Re.search py ic r). unfold Re.engine. rewrite Hc.
  split; [reflexivity|apply Hr].
Qed.

(** With plain tags the genre step stops only at the accessor, and it
    keeps the rows that pass the genre step of the specification. *)
Lemma genre_plain py is_text genres :
  Forall plain (selected_genres genres) ->
  step_error py is_text true (genre_pattern genres)
  = (if truthy (selected_genres genres) && negb is_text
     then Some AttributeError else None)
  /\ forall m, pass_genre py genres m = spec_genre py genres m.
Proof.
  intros Hp. unfold pass_genre, genre_pattern, spec_genre.
  destruct (selected_genres genres) as [|t ts]; cbn [truthy andb].
  - now split.
  - apply Forall_cons_iff in Hp as [Ht Hts].
    destruct (engine_plain_tags py true t ts Ht Hts) as (found & Hc & Hr).
    unfold step_error, found_by. rewrite Hc. split; [now destruct is_text|].
    intros m. destruct (Genre m) as [g|]; [|reflexivity]. apply Hr.
Qed.

(** With a search text whose lower-case form is plain the text step stops
    only at the accessor, and it keeps the rows that pass the text step
    of the specification. *)
Lemma title_plain py is_text search_query :
  plain (Text.lower py search_query) ->
  step_error py is_text false (query_pattern py search_query)
  = (if truthy search_query && negb is_text
     then Some AttributeError else None)
  /\ forall m, pass_title py search_query m = spec_title py search_query m.
Proof.
  intros Hp. unfold pass_title, query_pattern, spec_title.
  destruct (truthy search_query); cbn [andb].
  - destruct (engine_plain_tags py false (Text.lower py search_query) []
                Hp (List.Forall_nil _)) as (found & Hc & Hr).
    cbn [Text.join] in Hc.
    unfold step_error, found_by. rewrite Hc. split; [now destruct is_text|].
    intros m. destruct (Title m) as [t|]; [|reflexivity]. cbn [option_map].
    rewrite Hr. cbn [existsb]. now rewrite orb_false_r.
  - now split.
Qed.

(** ** [get_genres] *)

Lemma add_tags_spec (pieces : list str) (acc : gset str) t :
  t ∈ fold_left (fun acc genre => acc ∪ {[ Text.strip genre ]}) pieces acc
  <-> t ∈ acc \/ In t (map Text.strip pieces).
Proof.
  revert acc. induction pieces as [|p pieces IH]; intros acc; simpl.
  - tauto.
  - rewrite IH, elem_of_union, elem_of_singleton. intuition congruence.
Qed.

Lemma for_each_add_ok (d : Rows) (acc : gset str) (st : store) :
  Forall (fun m => Genre m <> None) d ->
  exists s, for_each add_genres (map Genre d) acc st = (Ok s, st)
            /\ forall t, t ∈ s <-> t ∈ acc
                 \/ exists m g, In m d /\ Genre m = Some g /\ In t (tags_of g).
Proof.
  intros Hd. revert acc.
  induction Hd as [|m d Hm _ IH]; intros acc; simpl.
  - exists acc. split; [reflexivity|]. intros t. split; [auto|].
    now intros [H|(m & g & [] & _)].
  - destruct (Genre m) as [g|] eqn:Hg; [|contradiction]. simpl.
    unfold bind, ret.
    destruct (IH (fold_left (fun acc genre => acc ∪ {[ Text.strip genre ]})
                            (Text.split 44%N g) acc))
      as (s & Hrun & Hs).
    exists s. split; [exact Hrun|]. intros t.
    rewrite Hs, add_tags_spec. fold (tags_of g). split.
    + intros [[H|H]|(m' & g' & Hin & Hg' & Ht)]; [now left| |].
      * right. exists m, g. auto.
      * right. exists m', g'. auto.
    + intros [H|(m' & g' & [<-|Hin] & Hg' & Ht)]; [now left; left| |].
      * rewrite Hg in Hg'. injection Hg' as <-. now left; right.
      * right. exists m', g'. auto.
Qed.

Lemma for_each_add_raises (d : Rows) (acc : gset str) (st : store) :
  Exists (fun m => Genre m = None) d ->
  for_each add_genres (map Genre d) acc st = (Raise AttributeError, st).
Proof.
  revert acc. induction d as [|m d IH]; intros acc Hd; [inversion Hd|].
  simpl. destruct (Genre m) as [g|] eqn:Hg; simpl.
  - unfold bind, ret. apply IH.
    apply Exists_cons in Hd as [Hd|Hd]; [congruence|exact Hd].
  - reflexivity.
Qed.

Lemma sorted_spec (s : gset str) :
  StronglySorted Text.le (sorted s)
  /\ List.NoDup (sorted s)
  /\ forall t, In t (sorted s) <-> t ∈ s.
Proof.
  unfold sorted. split; [apply StronglySorted_merge_sort; apply _|].
  pose proof (merge_sort_Permutation Text.le (elements s)) as Hp.
  split.
  - apply NoDup_ListNoDup. rewrite Hp. apply NoDup_elements.
  - intros t. rewrite <- list_elem_of_In, Hp. apply elem_of_elements.
Qed.

Lemma get_genres_run (st : store) self d :
  st !! df self = Some d ->
  Forall (fun m => Genre m <> None) (rows d) ->
  exists tags,
    get_genres self st = (Ok tags, st)
    /\ StronglySorted Text.le tags
    /\ List.NoDup tags
    /\ forall t, In t tags
         <-> exists m g, In m (rows d) /\ Genre m = Some g /\ In t (tags_of g).
Proof.
  intros Hd Hall. unfold get_genres.
  rewrite (bind_ok _ _ _ _ _ (text_column_run genre_text Genre _ _ _ Hd)).
  cbn [Pandas.cells].
  destruct (for_each_add_ok (rows d) ∅ st Hall) as (s & Hrun & Hs).
  rewrite (bind_ok _ _ _ _ _ Hrun).
  destruct (sorted_spec s) as (Hsorted & Hnodup & Hin).
  exists (sorted s). split; [reflexivity|].
  split; [exact Hsorted|]. split; [exact Hnodup|].
  intros t. rewrite Hin, Hs. split; [|auto].
  intros [H|H]; [now apply not_elem_of_empty in H|exact H].
Qed.

Lemma get_genres_stops (st : store) self d :
  st !! df self = Some d ->
  Exists (fun m => Genre m = None) (rows d) ->
  get_genres self st = (Raise AttributeError, st).
Proof.
  intros Hd Hmiss. unfold get_genres.
  rewrite (bind_ok _ _ _ _ _ (text_column_run genre_text Genre _ _ _ Hd)).
  apply bind_raise. now apply for_each_add_raises.
Qed.

(** A tag read from a Genre occurs in that Genre. *)
Lemma tag_occurs py g tag :
  In tag (tags_of g) -> Text.contains_letters py g tag = true.
Proof.
  unfold tags_of. intros H.
  apply in_map_iff in H as (piece & <- & Hpiece).
  apply split_infix in Hpiece as (a & b & Hg).
  destruct (strip_spec piece) as (ws1 & ws2 & Hp & _).
  apply occurs_by_spec.
  exists (a ++ ws1), (Text.strip piece), (ws2 ++ b).
  split.
  - rewrite Hp in Hg at 1. rewrite Hg, <- !app_assoc. reflexivity.
  - clear. generalize (Text.strip piece). intros w.
    induction w as [|c w IH]; constructor;
      [apply same_letter_refl|exact IH].
Qed.

(** ** The frame of a call *)

Lemma filter_movies_frame py (st : store) self d genres rating search_query :
  st !! df self = Some d ->
  st ⊆ snd (filter_movies py self genres rating search_query st)
  /\ forall v,
       fst (filter_movies py self genres rating search_query st) = Ok v ->
       st !! v = None
       /\ is_Some (snd (filter_movies py self genres rating search_query st)
                     !! v).
Proof.
  intros Hd.
  destruct (filter_movies_run py st self d genres rating search_query Hd)
    as (st' & Hsub & H).
  destruct (expected_view py d genres rating search_query) as [out|e|].
  - destruct H as (l & -> & Hl & Hout). simpl. split; [exact Hsub|].
    intros v [= <-]. eauto.
  - rewrite H. simpl. split; [exact Hsub|]. discriminate.
  - rewrite H. simpl. split; [exact Hsub|]. discriminate.
Qed.

(** What [read_csv] knows about the columns of the table it loads. *)
Lemma loaded_genre_text d m g :
  In m d -> Genre m = Some g -> genre_text (loaded d) = true.
Proof.
  intros Hm Hg. cbn [loaded genre_text]. unfold holds_text.
  destruct (map Genre d) eqn:E; [reflexivity|]. rewrite <- E.
  apply existsb_exists. exists (Some g). split; [|reflexivity].
  rewrite <- Hg. now apply in_map.
Qed.

Lemma loaded_title_text d m t :
  In m d -> Title m = Some t -> title_text (loaded d) = true.
Proof.
  intros Hm Ht. cbn [loaded title_text]. unfold holds_text.
  destruct (map Title d) eqn:E; [reflexivity|]. rewrite <- E.
  apply existsb_exists. exists (Some t). split; [|reflexivity].
  rewrite <- Ht. now apply in_map.
Qed.

(** * The claims *)

(** C1. Every call ends in one of two ways.  It raises when one of its
    two string steps is stopped ([call_raises]: a tag other than "All" is
    selected and the Genre column is not text or the joined tags are no
    regular expression; the search text is not empty and the Title
    column is not text or the lower-cased search text is no regular
    expression).  In every other case it returns a view, and that view
    is in order of Year descending, then Rating descending (missing
    values last); it holds exactly the rows that pass the three steps,
    and the rows that share a Year and a Rating stand in the order they
    have in the stored table. *)
Theorem filter_movies_sorted_stable
    py (st : store) self d genres rating search_query :
  st !! df self = Some d ->
  if call_raises py d genres search_query
  then exists e,
      view_of (filter_movies py self genres rating search_query st) = Raise e
  else exists out,
      view_of (filter_movies py self genres rating search_query st) = Ok out
      /\ StronglySorted in_order out
      /\ Permutation out
           (List.filter (passes py genres rating search_query) (rows d))
      /\ forall k,
           List.filter (same_key k) out
           = List.filter (same_key k)
               (List.filter (passes py genres rating search_query) (rows d)).
Proof.
  intros Hd. rewrite (filter_movies_view _ _ _ _ _ _ _ Hd).
  pose proof (expected_view_cases py d genres rating search_query) as E.
  destruct (call_raises py d genres search_query); [exact E|].
  rewrite E. eexists. split; [reflexivity|].
  split; [apply lexsort_sorted|].
  split; [apply lexsort_perm|]. intros k. apply lexsort_stable.
Qed.

(** C2, amended.  When no selected tag other than "All" contains a
    regular-expression metacharacter, the Genre column is text if such
    a tag is selected, and the text step does not raise, the call keeps
    exactly the rows that pass the genre step of the specification
    ([spec_genre]: some tag other than "All" occurs in the Genre as a
    case-insensitive substring, a missing Genre never passes, and a
    selection that is empty or holds only "All" lets every row pass) and
    the two other steps. *)
Theorem genre_step_plain py (st : store) self d genres rating search_query :
  st !! df self = Some d ->
  Forall plain (selected_genres genres) ->
  (selected_genres genres <> [] -> genre_text d = true) ->
  step_raises py (title_text d) false (query_pattern py search_query) = false ->
  exists out,
    view_of (filter_movies py self genres rating search_query st) = Ok out
    /\ Permutation out
         (List.filter (fun m => spec_genre py genres m && keep_rating rating m
                                && pass_title py search_query m) (rows d)).
Proof.
  intros Hd Hp Htext Hq.
  destruct (genre_plain py (genre_text d) genres Hp) as (Hg & Hspec).
  rewrite (filter_movies_view _ _ _ _ _ _ _ Hd), expected_view_ok.
  - eexists. split; [reflexivity|]. rewrite lexsort_perm.
    erewrite List.filter_ext; [reflexivity|].
    intros m. unfold passes. now rewrite Hspec.
  - unfold call_raises. rewrite Hq, orb_false_r. unfold step_raises.
    rewrite Hg. destruct (selected_genres genres); [reflexivity|].
    now rewrite Htext.
Qed.

(** C3. Every call raises when one of its two string steps is stopped
    ([call_raises]), whatever the threshold; in every other case it
    returns a view holding exactly the rows that pass the genre and text
    steps and, when the threshold is positive, have a Rating in
    [rating, rating + 1); with a threshold that is zero or negative the
    rating step lets every row pass. *)
Theorem rating_step_band
    py (st : store) self d genres rating search_query :
  st !! df self = Some d ->
  if call_raises py d genres search_query
  then exists e,
      view_of (filter_movies py self genres rating search_query st) = Raise e
  else exists out,
      view_of (filter_movies py self genres rating search_query st) = Ok out
      /\ Permutation out
           (List.filter (passes py genres rating search_query) (rows d))
      /\ forall m,
           passes py genres rating search_query m = true
           <-> pass_genre py genres m = true /\ spec_rating rating m
               /\ pass_title py search_query m = true.
Proof.
  intros Hd. rewrite (filter_movies_view _ _ _ _ _ _ _ Hd).
  pose proof (expected_view_cases py d genres rating search_query) as E.
  destruct (call_raises py d genres search_query); [exact E|].
  rewrite E. eexists. split; [reflexivity|].
  split; [apply lexsort_perm|].
  intros m. unfold passes, keep_rating, spec_rating, in_band.
  rewrite !andb_true_iff.
  destruct (Z.ltb_spec 0 rating) as [Hpos|Hneg].
  - destruct (Rating m) as [x|].
    + rewrite andb_true_iff, Qle_bool_iff, Qltb_lt. split.
      * intros [[H1 [H2 H3]] H4]. repeat split; try assumption.
        intros _. exists x. auto.
      * intros (H1 & H2 & H3). destruct (H2 Hpos) as (y & [= <-] & H4 & H5).
        auto.
    + split.
      * now intros [[_ H] _].
      * intros (_ & H & _). now destruct (H Hpos) as (y & ? & _).
  - split.
    + intros [[H1 _] H2]. repeat split; try assumption. lia.
    + intros (H1 & _ & H2). auto.
Qed.

(** C4.  The Title of [summer] contains "(", so the text step of the
    specification keeps the row for the search text "(";
    [filter_movies] raises instead: the search text is compiled as a
    regular expression. *)
Theorem title_search_stops_at_parenthesis py :
  spec_title py (u "(") summer = true
  /\ view_of (filter_movies py rec0 [] (-1) (u "(") (st0 [summer]))
     = Raise ReError.
Proof. split; reflexivity. Qed.

(** C5.  For a table with a row whose Genre is missing, [get_genres]
    raises and returns no tags, while [filter_movies] on the same table
    takes the missing Genre as one that does not match. *)
Theorem get_genres_stops_at_missing_genre py :
  get_genres rec0 (st0 (band_demo ++ [untagged]))
  = (Raise AttributeError, st0 (band_demo ++ [untagged]))
  /\ view_of (filter_movies py rec0 [u "Drama"] 7 []
                            (st0 (band_demo ++ [untagged])))
     = Ok [movie 1 "In" "Drama" (79 # 10) 2002].
Proof. split; reflexivity. Qed.

(** C6. A call leaves the stored table as it was, whatever its outcome:
    every object of the store, the recommender's table among them, holds
    after the call what it held before; and a returned view is an object
    that did not exist before the call, so it is not the stored table. *)
Theorem filter_movies_leaves_dataset
    py (st : store) self d genres rating search_query :
  st !! df self = Some d ->
  let res := filter_movies py self genres rating search_query st in
  snd res !! df self = Some d
  /\ (forall l x, st !! l = Some x -> snd res !! l = Some x)
  /\ (forall v, fst res = Ok v ->
        st !! v = None /\ v <> df self /\ is_Some (snd res !! v)).
Proof.
  intros Hd res.
  destruct (filter_movies_frame py st self d genres rating search_query Hd)
    as [Hsub Hnew].
  fold res in Hsub, Hnew.
  split; [now apply (lookup_weaken st)|].
  split; [intros l x Hl; now apply (lookup_weaken st)|].
  intros v Hv. destruct (Hnew v Hv) as [Hfresh Hbound].
  split; [exact Hfresh|]. split; [congruence|exact Hbound].
Qed.

(** C7.  Two calls on loaded tables that raise: the search text "(" is
    no regular expression, and the Genre column of a table in which
    every Genre is missing is not a text column. *)
Theorem filter_movies_raises_at_parenthesis py :
  view_of (filter_movies py rec0 [u "All"] (-1) (u "(") (st0 demo))
  = Raise ReError
  /\ view_of (filter_movies py rec0 [u "Drama"] (-1) [] (st0 [untagged]))
     = Raise AttributeError.
Proof. split; reflexivity. Qed.

(** C8. Two calls in a row with the same arguments end the same way: the
    second raises what the first raised, or returns a view with the same
    rows in the same order, and the view returned first is still what it
    was. *)
Theorem filter_movies_repeatable
    py (st : store) self d genres rating search_query :
  st !! df self = Some d ->
  let first := filter_movies py self genres rating search_query st in
  let second := filter_movies py self genres rating search_query (snd first) in
  view_of second = view_of first
  /\ view_of (fst first, snd second) = view_of first.
Proof.
  intros Hd first second.
  destruct (filter_movies_frame py st self d genres rating search_query Hd)
    as [Hsub _]. fold first in Hsub.
  assert (Hd' : snd first !! df self = Some d)
    by now apply (lookup_weaken st).
  destruct (filter_movies_frame py _ self d genres rating search_query Hd')
    as [Hsub' _]. fold second in Hsub'.
  split.
  - unfold second. rewrite (filter_movies_view _ _ _ _ _ _ _ Hd').
    unfold first. now rewrite (filter_movies_view _ _ _ _ _ _ _ Hd).
  - destruct (filter_movies_run py st self d genres rating search_query Hd)
      as (st' & _ & H).
    fold first in H.
    destruct (expected_view py d genres rating search_query) as [out|e|].
    + destruct H as (l & Hrun & _ & Hl). rewrite Hrun in Hsub' |- *.
      simpl in *. now rewrite Hl, (lookup_weaken _ _ _ _ Hl Hsub').
    + now rewrite H.
    + now rewrite H.
Qed.

(** C10. [get_genres] raises AttributeError, and leaves the store as it
    was, for every table in which some Genre is missing. *)
Theorem get_genres_raises_on_missing (st : store) self d :
  st !! df self = Some d ->
  Exists (fun m => Genre m = None) (rows d) ->
  get_genres self st = (Raise AttributeError, st).
Proof. exact (get_genres_stops st self d). Qed.

Lemma compile_dot : Re.compile (u ".") = Re.Pattern (Re.Seq Re.Any Re.Eps).
Proof. reflexivity. Qed.

Lemma search_dot py ic s c :
  In c s -> c <> Re.newline ->
  Re.search py ic (Re.Seq Re.Any Re.Eps) s = true.
Proof.
  intros Hin Hc. apply search_spec.
  apply in_split in Hin as (a & b & ->). exists a, [c], b.
  split; [reflexivity|].
  apply (Re.MSeq py ic Re.Any Re.Eps [c] []); [now constructor|constructor].
Qed.

(** C9. The tags and the search text are read as regular expressions.
    For every loaded table: a tag "(" makes the call raise (re.error, or
    AttributeError before it when the Genre column is not text), and so
    does a search text "(" when the genre step does not raise before it;
    with the tag "." the view holds the rows whose Genre has a character
    other than a newline, and with the search text "." those whose
    lower-cased Title has one, although "." occurs in neither. *)
Theorem patterns_are_regular_expressions py (st : store) self d rating :
  st !! df self = Some (loaded d) ->
  (forall search_query,
     view_of (filter_movies py self [u "("] rating search_query st)
     = Raise (if genre_text (loaded d) then ReError else AttributeError))
  /\ (forall genres,
        step_raises py (genre_text (loaded d)) true (genre_pattern genres)
        = false ->
        view_of (filter_movies py self genres rating (u "(") st)
        = Raise (if title_text (loaded d) then ReError else AttributeError))
  /\ (forall m g c,
        In m d -> Genre m = Some g ->
        Text.contains_nocase py g (u ".") = false ->
        In c g -> c <> Re.newline ->
        keep_rating rating m = true ->
        exists out,
          view_of (filter_movies py self [u "."] rating [] st) = Ok out
          /\ In m out)
  /\ (forall m t c,
        In m d -> Title m = Some t ->
        Text.contains_nocase py t (u ".") = false ->
        In c (Text.lower py t) -> c <> Re.newline ->
        keep_rating rating m = true ->
        exists out,
          view_of (filter_movies py self [] rating (u ".") st) = Ok out
          /\ In m out).
Proof.
  intros Hd. repeat split.
  - intros q. rewrite (filter_movies_view _ _ _ _ _ _ _ Hd).
    unfold expected_view, call_error.
    change (step_error py (genre_text (loaded d)) true (genre_pattern [u "("]))
      with (if genre_text (loaded d) then Some ReError
            else Some AttributeError).
    now destruct (genre_text (loaded d)).
  - intros genres Hg. rewrite (filter_movies_view _ _ _ _ _ _ _ Hd).
    unfold expected_view, call_error. unfold step_raises in Hg.
    destruct (step_error py (genre_text (loaded d)) true (genre_pattern genres));
      [discriminate|].
    change (step_error py (title_text (loaded d)) false
              (query_pattern py (u "(")))
      with (if title_text (loaded d) then Some ReError
            else Some AttributeError).
    now destruct (title_text (loaded d)).
  - intros m g c Hm Hg _ Hc Hnl Hr.
    rewrite (filter_movies_view _ _ _ _ _ _ _ Hd).
    unfold expected_view, call_error.
    change (query_pattern py []) with (@None str).
    change (genre_pattern [u "."]) with (Some (u ".")).
    unfold step_error at 1. rewrite (loaded_genre_text d m g Hm Hg).
    change (Re.engine py (u ".") true)
      with (Some (Re.search py true (Re.Seq Re.Any Re.Eps))).
    cbn [step_error]. eexists. split; [reflexivity|].
    apply (Permutation_in m (Permutation_sym (lexsort_perm _))).
    apply filter_In. split; [exact Hm|]. unfold passes. rewrite Hr.
    unfold pass_title, pass_genre.
    change (query_pattern py []) with (@None str).
    change (genre_pattern [u "."]) with (Some (u ".")).
    cbn [found_by]. rewrite Hg.
    change (Re.engine py (u ".") true)
      with (Some (Re.search py true (Re.Seq Re.Any Re.Eps))).
    cbv iota beta. rewrite !andb_true_r.
    exact (search_dot py true g c Hc Hnl).
  - intros m t c Hm Ht _ Hc Hnl Hr.
    rewrite (filter_movies_view _ _ _ _ _ _ _ Hd).
    unfold expected_view, call_error.
    change (query_pattern py (u ".")) with (Some (u ".")).
    change (genre_pattern []) with (@None str).
    cbn [step_error]. rewrite (loaded_title_text d m t Hm Ht).
    change (Re.engine py (u ".") false)
      with (Some (Re.search py false (Re.Seq Re.Any Re.Eps))).
    cbv iota beta. eexists. split; [reflexivity|].
    apply (Permutation_in m (Permutation_sym (lexsort_perm _))).
    apply filter_In. split; [exact Hm|]. unfold passes. rewrite Hr.
    unfold pass_title, pass_genre.
    change (query_pattern py (u ".")) with (Some (u ".")).
    change (genre_pattern []) with (@None str).
    cbn [found_by andb]. rewrite Ht.
    change (Re.engine py (u ".") false)
      with (Some (Re.search py false (Re.Seq Re.Any Re.Eps))).
    cbn [option_map].
    exact (search_dot py false (Text.lower py t) c Hc Hnl).
Qed.

(** * The claims at concrete inputs *)

Lemma filter_movies_sorted_stable_witness :
  exists out,
    view_of (filter_movies ascii_python rec0 [u "All"; u "drama"] (-1) (u "o")
                           (st0 demo)) = Ok out
    /\ StronglySorted in_order out
    /\ Permutation out
         (List.filter (passes ascii_python [u "All"; u "drama"] (-1) (u "o"))
                      demo)
    /\ forall k,
         List.filter (same_key k) out
         = List.filter (same_key k)
             (List.filter
                (passes ascii_python [u "All"; u "drama"] (-1) (u "o")) demo).
Proof.
  exact (filter_movies_sorted_stable ascii_python (st0 demo) rec0
           (loaded demo) [u "All"; u "drama"] (-1) (u "o") Logic.eq_refl).
Defined.

Lemma genre_step_plain_witness :
  Forall plain (selected_genres [u "All"; u "drama"])
  /\ exists out,
       view_of (filter_movies ascii_python rec0 [u "All"; u "drama"] (-1)
                              (u "o") (st0 demo)) = Ok out
       /\ Permutation out
            (List.filter
               (fun m => spec_genre ascii_python [u "All"; u "drama"] m
                         && keep_rating (-1) m
                         && pass_title ascii_python (u "o") m) demo).
Proof.
  split; [plain_text|].
  apply (genre_step_plain ascii_python (st0 demo) rec0 (loaded demo));
    [reflexivity|plain_text|reflexivity|reflexivity].
Defined.

(** The selection ["."] keeps every row of [demo], none of which has a
    "." in its Genre. *)
Lemma genre_step_counterexample :
  exists out,
    view_of (filter_movies ascii_python rec0 [u "."] (-1) [] (st0 demo))
    = Ok out
    /\ ~ Permutation out
           (List.filter
              (fun m => spec_genre ascii_python [u "."] m && keep_rating (-1) m
                        && spec_title ascii_python [] m) demo).
Proof.
  eexists. split; [reflexivity|].
  intros H. apply Permutation_length in H. vm_compute in H. discriminate.
Qed.

Lemma rating_step_band_witness :
  exists out,
    view_of (filter_movies ascii_python rec0 [u "All"] 7 [] (st0 band_demo))
    = Ok out
    /\ Permutation out
         (List.filter (passes ascii_python [u "All"] 7 []) band_demo)
    /\ forall m,
         passes ascii_python [u "All"] 7 [] m = true
         <-> pass_genre ascii_python [u "All"] m = true /\ spec_rating 7 m
             /\ pass_title ascii_python [] m = true.
Proof.
  exact (rating_step_band ascii_python (st0 band_demo) rec0 (loaded band_demo)
           [u "All"] 7 [] Logic.eq_refl).
Defined.

Lemma filter_movies_leaves_dataset_witness :
  let res :=
    filter_movies ascii_python rec0 [u "drama"] 3 (u "room") (st0 demo) in
  snd res !! df rec0 = Some (loaded demo)
  /\ (forall l x, st0 demo !! l = Some x -> snd res !! l = Some x)
  /\ (forall v, fst res = Ok v ->
        st0 demo !! v = None /\ v <> df rec0 /\ is_Some (snd res !! v)).
Proof.
  apply (filter_movies_leaves_dataset ascii_python (st0 demo) rec0
           (loaded demo)). reflexivity.
Defined.

Lemma filter_movies_repeatable_witness :
  let first :=
    filter_movies ascii_python rec0 [u "Action"] 7 (u "b") (st0 demo) in
  let second :=
    filter_movies ascii_python rec0 [u "Action"] 7 (u "b") (snd first) in
  view_of second = view_of first
  /\ view_of (fst first, snd second) = view_of first.
Proof.
  apply (filter_movies_repeatable ascii_python (st0 demo) rec0 (loaded demo)).
  reflexivity.
Defined.

Lemma patterns_are_regular_expressions_witness :
  view_of (filter_movies ascii_python rec0 [u "("] (-1) (u "up") (st0 demo))
  = Raise ReError
  /\ view_of (filter_movies ascii_python rec0 [u "All"] (-1) (u "(")
                            (st0 demo))
     = Raise ReError
  /\ (exists out,
        view_of (filter_movies ascii_python rec0 [u "."] (-1) [] (st0 demo))
        = Ok out
        /\ In (movie 2 "The Room" "Drama" (37 # 10) 2003) out)
  /\ (exists out,
        view_of (filter_movies ascii_python rec0 [] (-1) (u ".") (st0 demo))
        = Ok out
        /\ In (movie 1 "Up" "Animation, Adventure, comedy" (8 # 1) 2009) out).
Proof.
  destruct (patterns_are_regular_expressions ascii_python (st0 demo) rec0 demo
              (-1) Logic.eq_refl) as (Htag & Htext & Hgenre & Htitle).
  split; [apply Htag|].
  split; [apply (Htext [u "All"]); reflexivity|].
  split.
  - apply (Hgenre _ (u "Drama") 68%N);
      [simpl; tauto|reflexivity|reflexivity|vm_compute; tauto|discriminate
      |reflexivity].
  - apply (Htitle _ (u "Up") 117%N);
      [simpl; tauto|reflexivity|reflexivity|vm_compute; tauto|discriminate
      |reflexivity].
Defined.

Lemma get_genres_raises_on_missing_witness :
  Exists (fun m => Genre m = None) (demo ++ [untagged])
  /\ get_genres rec0 (st0 (demo ++ [untagged]))
     = (Raise AttributeError, st0 (demo ++ [untagged])).
Proof.
  assert (H : Exists (fun m => Genre m = None) (demo ++ [untagged])).
  { apply List.Exists_exists. exists untagged. split; [|reflexivity].
    apply in_or_app. right. now left. }
  split; [exact H|].
  apply (get_genres_raises_on_missing (st0 (demo ++ [untagged])) rec0
           (loaded (demo ++ [untagged]))); [reflexivity|exact H].
Defined.

(** ** The examples of the specification *)

Example genre_extraction :
  fst (get_genres rec0 (st0 genre_demo))
  = Ok [u "Action"; u "Comedy"; u "Drama"; u "comedy"].
Proof. vm_compute. reflexivity. Qed.

Example rating_band :
  view_of (filter_movies ascii_python rec0 [u "All"] 7 [] (st0 band_demo))
  = Ok [movie 1 "In" "Drama" (79 # 10) 2002].
Proof. reflexivity. Qed.

Example search_ignores_case :
  view_of (filter_movies ascii_python rec0 [u "All"] (-1) (u "batman")
                         (st0 demo))
  = Ok [movie 0 "Batman Begins" "Action, Adventure" (79 # 10) 2005].
Proof. reflexivity. Qed.

Example year_dominates :
  view_of (filter_movies ascii_python rec0 [u "All"] (-1) [] (st0 year_demo))
  = Ok [movie 1 "Newer" "Drama" (5 # 1) 2015;
        movie 0 "Older" "Drama" (8 # 1) 2010].
Proof. reflexivity. Qed.

Example no_genre_restriction :
  view_of (filter_movies ascii_python rec0 [] (-1) [] (st0 demo))
  = view_of (filter_movies ascii_python rec0 [u "All"] (-1) [] (st0 demo)).
Proof. reflexivity. Qed.

Example empty_result :
  view_of (filter_movies ascii_python rec0 [u "Western"] (-1) [] (st0 demo))
  = Ok [].
Proof. reflexivity. Qed.

(** Trimming removes the no-break space (U+00A0) as well. *)
Example genre_extraction_nbsp :
  fst (get_genres rec0
         (st0 [movie 0 "First" "Action, Drama " (7 # 1) 2001]))
  = Ok [u "Action"; u "Drama"].
Proof. vm_compute. reflexivity. Qed.

(** A call on an all-missing Title column stops at the accessor. *)
Example search_on_untitled :
  view_of (filter_movies ascii_python rec0 [] (-1) (u "x")
             (st0 [mkMovie 0 None (Some (u "Drama")) None None None None None]))
  = Raise AttributeError.
Proof. reflexivity. Qed.

(** * Further properties of the code *)

(** ** Narrowing and repeating a filter *)

Lemma call_raises_none py d :
  call_raises py d [] [] = false.
Proof. reflexivity. Qed.



Lemma passes_rating py genres rating search_query m :
  passes py genres rating search_query m
  = passes py genres (-1) search_query m && keep_rating rating m.
Proof.
  unfold passes. change (keep_rating (-1) m) with true.
  rewrite andb_true_r.
  destruct (pass_genre py genres m), (pass_title py search_query m),
    (keep_rating rating m); reflexivity.
Qed.

Lemma view_with_rating py (st : store) self d genres rating search_query :
  st !! df self = Some d ->
  call_raises py d genres search_query = false ->
  view_of (filter_movies py self genres rating search_query st)
  = Ok (List.filter (keep_rating rating)
          (Pandas.lexsort
             (List.filter (passes py genres (-1) search_query) (rows d)))).
Proof.
  intros Hd Hc. rewrite (filter_movies_view _ _ _ _ _ _ _ Hd).
  rewrite expected_view_ok by exact Hc. f_equal.
  rewrite <- lexsort_filter, filter_filter. f_equal.
  apply List.filter_ext. intros m. apply passes_rating.
Qed.

Lemma view_raises py (st : store) self d genres rating search_query :
  st !! df self = Some d ->
  call_raises py d genres search_query = true ->
  exists e, call_error py d genres search_query = Some e
            /\ view_of (filter_movies py self genres rating search_query st)
               = Raise e.
Proof.
  intros Hd Hc. rewrite (filter_movies_view _ _ _ _ _ _ _ Hd).
  unfold expected_view. unfold call_raises, step_raises in Hc.
  unfold call_error.
  destruct (step_error py (genre_text d) true (genre_pattern genres)) as [e|];
    [now exists e|].
  destruct (step_error py (title_text d) false (query_pattern py search_query))
    as [e|]; [now exists e|discriminate].
Qed.

(** X2. The rating step only removes rows from what the same call shows
    with the threshold -1 (the call of [apply_filter] and of the search
    box): the two calls raise the same exception when a string step is
    stopped ([call_raises]), and otherwise the view for a threshold is
    the view for -1 without the rows outside the band, in the same
    order. *)
Theorem rating_only_removes
    py (st : store) self d genres rating search_query :
  st !! df self = Some d ->
  if call_raises py d genres search_query
  then exists e,
      view_of (filter_movies py self genres rating search_query st) = Raise e
      /\ view_of (filter_movies py self genres (-1) search_query st) = Raise e
  else exists unrated,
      view_of (filter_movies py self genres (-1) search_query st) = Ok unrated
      /\ view_of (filter_movies py self genres rating search_query st)
         = Ok (List.filter (keep_rating rating) unrated).
Proof.
  intros Hd. destruct (call_raises py d genres search_query) eqn:Hc.
  - destruct (view_raises py st self d genres rating search_query Hd Hc)
      as (e & He & H1).
    destruct (view_raises py st self d genres (-1) search_query Hd Hc)
      as (e' & He' & H2).
    exists e. split; [exact H1|]. congruence.
  - eexists. split;
      [|exact (view_with_rating py st self d genres rating search_query Hd Hc)].
    rewrite (view_with_rating py st self d genres (-1) search_query Hd Hc).
    f_equal. apply filter_all.
Qed.

(** X3. Filtering a view again with the criteria that produced it gives
    the same rows in the same order: when the call returns (it raises
    when a string step is stopped, [call_raises]), a recommender built
    on the returned view returns that view. *)
Theorem filter_movies_idempotent
    py (st : store) self d genres rating search_query :
  st !! df self = Some d ->
  if call_raises py d genres search_query
  then exists e,
      view_of (filter_movies py self genres rating search_query st) = Raise e
  else exists v st1 out,
      filter_movies py self genres rating search_query st = (Ok v, st1)
      /\ view_of (Ok v, st1) = Ok out
      /\ view_of (filter_movies py {| df := v |} genres rating search_query st1)
         = Ok out.
Proof.
  intros Hd. destruct (call_raises py d genres search_query) eqn:Hc.
  - destruct (view_raises py st self d genres rating search_query Hd Hc)
      as (e & _ & H). now exists e.
  - destruct (filter_movies_run py st self d genres rating search_query Hd)
      as (st1 & _ & H).
    rewrite (expected_view_ok _ _ _ _ _ Hc) in H.
    destruct H as (v & Hrun & _ & Hv).
    eexists v, st1, _.
    split; [exact Hrun|]. split; [cbn [view_of]; now rewrite Hv|].
    rewrite (filter_movies_view py st1 {| df := v |} _ genres rating
               search_query Hv).
    rewrite expected_view_ok by exact Hc. cbn [rows with_rows]. f_equal.
    rewrite lexsort_filter, lexsort_idem, <- lexsort_filter, filter_filter.
    f_equal. apply List.filter_ext. intros m. apply andb_diag.
Qed.

(** X4. When the call returns (no string step is stopped), its view is
    the only arrangement of the kept rows that is in order of Year
    descending, then Rating descending, and lists the rows of every
    (Year, Rating) class as the stored table does. *)
Theorem view_is_the_stable_arrangement
    py (st : store) self d genres rating search_query (l : Rows) :
  st !! df self = Some d ->
  call_raises py d genres search_query = false ->
  StronglySorted in_order l ->
  (forall k, List.filter (same_key k) l
             = List.filter (same_key k)
                 (List.filter (passes py genres rating search_query) (rows d))) ->
  view_of (filter_movies py self genres rating search_query st) = Ok l.
Proof.
  intros Hd Hc Hsorted Hstable.
  rewrite (filter_movies_view _ _ _ _ _ _ _ Hd).
  rewrite expected_view_ok by exact Hc. f_equal.
  apply in_order_unique; [apply lexsort_sorted|exact Hsorted|].
  intros k. now rewrite lexsort_stable, Hstable.
Qed.

(** X5. With no tag other than "All", a threshold that is not positive
    and an empty search text, the call returns every row of the table. *)
Theorem no_criteria_returns_all
    py (st : store) self d genres rating :
  st !! df self = Some d ->
  selected_genres genres = [] ->
  (rating <= 0)%Z ->
  exists out,
    view_of (filter_movies py self genres rating [] st) = Ok out
    /\ Permutation out (rows d).
Proof.
  intros Hd Hsel Hr. exists (Pandas.lexsort (rows d)).
  rewrite (filter_movies_view _ _ _ _ _ _ _ Hd).
  split; [|apply lexsort_perm].
  rewrite expected_view_ok.
  - do 2 f_equal.
    rewrite <- (filter_all (rows d)) at 2. apply List.filter_ext. intros m.
    unfold passes, pass_genre, pass_title, genre_pattern, keep_rating.
    rewrite Hsel. simpl.
    destruct (Z.ltb_spec 0 rating); [lia|reflexivity].
  - unfold call_raises, step_raises, genre_pattern. now rewrite Hsel.
Qed.

Lemma lower_nil py s : Text.lower py s = [] <-> s = [].
Proof.
  unfold Text.lower. split.
  - destruct (Text.is_ascii s).
    + now destruct s.
    + intros H. destruct s as [|c s]; [reflexivity|].
      now apply (lower_rest_nonempty py) in H.
  - now intros ->.
Qed.

(** X6. The search text matters only up to case: two search texts with
    the same lower-case form give the same outcome, whether a view or an
    exception. *)
Theorem search_text_case_is_ignored
    py (st : store) self d genres rating q1 q2 :
  st !! df self = Some d ->
  Text.lower py q1 = Text.lower py q2 ->
  view_of (filter_movies py self genres rating q1 st)
  = view_of (filter_movies py self genres rating q2 st).
Proof.
  intros Hd Hq. rewrite !(filter_movies_view _ _ _ _ _ _ _ Hd).
  assert (Hp : query_pattern py q1 = query_pattern py q2).
  { unfold query_pattern. rewrite Hq.
    destruct q1 as [|c1 q1], q2 as [|c2 q2]; try reflexivity.
    - symmetry in Hq. now apply lower_nil in Hq.
    - now apply lower_nil in Hq. }
  unfold expected_view, call_error, passes, pass_title. now rewrite Hp.
Qed.

(** ** Rating bands *)

Lemma band_is_floor (r : Z) (x : Q) :
  (inject_Z r <= x /\ x < inject_Z (r + 1))%Q <-> r = Qfloor x.
Proof.
  split.
  - intros [Hlo Hhi]. apply Z.le_antisymm.
    + rewrite <- (Qfloor_Z r). now apply Qfloor_resp_le.
    + destruct (Z_le_gt_dec (Qfloor x) r) as [H|H]; [exact H|exfalso].
      apply (Qlt_irrefl x). eapply Qlt_le_trans; [exact Hhi|].
      eapply Qle_trans; [|apply Qfloor_le].
      rewrite <- Zle_Qle. lia.
  - intros ->. split; [apply Qfloor_le|apply Qlt_floor].
Qed.

(** X7. The positive thresholds tile the rated rows.  A call raises,
    whatever the threshold, when a string step is stopped
    ([call_raises]); otherwise, of the rows that the genre and text
    steps let through (the view for the threshold -1), a row with Rating
    x is shown for the threshold floor(x) and for no other positive
    threshold. *)
Theorem rating_bands_tile
    py (st : store) self d genres search_query (r : Z) :
  st !! df self = Some d ->
  (0 < r)%Z ->
  if call_raises py d genres search_query
  then exists e,
      view_of (filter_movies py self genres r search_query st) = Raise e
      /\ view_of (filter_movies py self genres (-1) search_query st) = Raise e
  else exists out unrated,
      view_of (filter_movies py self genres r search_query st) = Ok out
      /\ view_of (filter_movies py self genres (-1) search_query st)
         = Ok unrated
      /\ forall m x, In m unrated -> Rating m = Some x ->
                     (In m out <-> r = Qfloor x).
Proof.
  intros Hd Hr.
  pose proof (rating_only_removes py st self d genres r search_query Hd) as H.
  destruct (call_raises py d genres search_query); [exact H|].
  destruct H as (unrated & H1 & H2).
  eexists. exists unrated. split; [exact H2|]. split; [exact H1|].
  intros m x Hm Hx. rewrite filter_In, <- band_is_floor.
  unfold keep_rating, in_band. apply Z.ltb_lt in Hr. rewrite Hr, Hx.
  rewrite andb_true_iff, Qle_bool_iff, Qltb_lt. tauto.
Qed.

(** ** Tags, from [get_genres] to [filter_movies] *)

Lemma existsb_incl {A} (f : A -> bool) (l1 l2 : list A) :
  incl l1 l2 -> existsb f l1 = true -> existsb f l2 = true.
Proof.
  intros Hincl H. apply existsb_exists in H as (x & Hx & Hf).
  apply existsb_exists. exists x. split; [now apply Hincl|exact Hf].
Qed.

(** X8. Every tag that [get_genres] reads from a row selects that row:
    when the tags of the selection other than "All" contain no
    regular-expression metacharacter and one of them is a tag of the
    row's Genre, the row is in the view (for a threshold that is not
    positive and an empty search text). *)
Theorem offered_tag_selects_its_rows
    py (st : store) self d genres rating m g tag :
  st !! df self = Some (loaded d) ->
  Forall plain (selected_genres genres) ->
  (rating <= 0)%Z ->
  In m d -> Genre m = Some g -> In tag (tags_of g) ->
  In tag (selected_genres genres) ->
  exists out,
    view_of (filter_movies py self genres rating [] st) = Ok out /\ In m out.
Proof.
  intros Hd Hp Hr Hm Hg Htag Hsel.
  destruct (genre_plain py (genre_text (loaded d)) genres Hp) as (Hgp & Hspec).
  rewrite (filter_movies_view _ _ _ _ _ _ _ Hd), expected_view_ok.
  - eexists. split; [reflexivity|].
    apply (Permutation_in m (Permutation_sym (lexsort_perm _))).
    apply filter_In. split; [exact Hm|].
    unfold passes, keep_rating. rewrite Hspec.
    destruct (Z.ltb_spec 0 rating); [lia|]. cbn [pass_title query_pattern
      truthy found_by]. rewrite !andb_true_r.
    unfold spec_genre. destruct (selected_genres genres) as [|t ts];
      [destruct Hsel|]. cbn [truthy]. rewrite Hg.
    apply existsb_exists. exists tag. split; [exact Hsel|].
    now apply tag_occurs.
  - unfold call_raises, step_raises. rewrite Hgp.
    rewrite (loaded_genre_text d m g Hm Hg). now rewrite andb_false_r.
Qed.

(** X9. Selecting more tags only adds rows.  Take two selections, the
    tags other than "All" of the first (there is at least one) being
    among those of the second, and no tag of the second containing a
    regular-expression metacharacter.  The two calls raise the same
    exception when the Genre column is not text or the text step is
    stopped; otherwise the first view is the second view restricted to
    the rows whose Genre contains a tag of the first selection as a
    case-insensitive substring, in the same order. *)
Theorem more_tags_more_rows
    py (st : store) self d genres1 genres2 rating search_query :
  st !! df self = Some d ->
  Forall plain (selected_genres genres2) ->
  incl (selected_genres genres1) (selected_genres genres2) ->
  selected_genres genres1 <> [] ->
  if negb (genre_text d)
     || step_raises py (title_text d) false (query_pattern py search_query)
  then exists e,
      view_of (filter_movies py self genres1 rating search_query st) = Raise e
      /\ view_of (filter_movies py self genres2 rating search_query st)
         = Raise e
  else exists out1 out2,
      view_of (filter_movies py self genres1 rating search_query st) = Ok out1
      /\ view_of (filter_movies py self genres2 rating search_query st)
         = Ok out2
      /\ out1 = List.filter (spec_genre py genres1) out2.
Proof.
  intros Hd Hp2 Hincl Hne.
  assert (Hp1 : Forall plain (selected_genres genres1)).
  { rewrite Forall_forall in Hp2 |- *. intros t Ht. apply Hp2.
    apply list_elem_of_In. apply list_elem_of_In in Ht. now apply Hincl. }
  destruct (genre_plain py (genre_text d) genres1 Hp1) as (Hg1 & Hs1).
  destruct (genre_plain py (genre_text d) genres2 Hp2) as (Hg2 & Hs2).
  assert (Hne2 : selected_genres genres2 <> []).
  { destruct (selected_genres genres1) as [|t1 ts1]; [contradiction|].
    intros E. rewrite E in Hincl.
    destruct (Hincl t1 (or_introl Logic.eq_refl)). }
  assert (Ht1 : truthy (selected_genres genres1) = true)
    by (destruct (selected_genres genres1); [contradiction|reflexivity]).
  assert (Ht2 : truthy (selected_genres genres2) = true)
    by (destruct (selected_genres genres2); [contradiction|reflexivity]).
  rewrite Ht1 in Hg1. rewrite Ht2 in Hg2. cbn [andb] in Hg1, Hg2.
  rewrite !(filter_movies_view _ _ _ _ _ _ _ Hd).
  unfold expected_view, call_error, step_raises. rewrite Hg1, Hg2.
  destruct (genre_text d); cbn [negb orb].
  - destruct (step_error py (title_text d) false
                (query_pattern py search_query)) as [e|].
    + now exists e.
    + eexists. eexists. split; [reflexivity|]. split; [reflexivity|].
      rewrite <- lexsort_filter, filter_filter. f_equal.
      apply List.filter_ext. intros m. unfold passes. rewrite Hs1, Hs2.
      assert (H12 : spec_genre py genres1 m = true ->
                    spec_genre py genres2 m = true).
      { unfold spec_genre. rewrite Ht1, Ht2.
        destruct (Genre m); [|discriminate]. now apply existsb_incl. }
      destruct (spec_genre py genres1 m) eqn:E1.
      * rewrite (H12 Logic.eq_refl). simpl. now rewrite andb_true_r.
      * simpl. now rewrite andb_false_r.
  - now exists AttributeError.
Qed.

(** X10. No tag returned by [get_genres] contains a comma, and none
    starts or ends with a whitespace character. *)
Theorem get_genres_tags_are_trimmed (st : store) self d :
  st !! df self = Some d ->
  Forall (fun m => Genre m <> None) (rows d) ->
  exists tags,
    get_genres self st = (Ok tags, st)
    /\ forall t, In t tags ->
         ~ In 44%N t
         /\ (forall c rest, t = c :: rest -> Text.is_space c = false)
         /\ (forall c front, t = front ++ [c] -> Text.is_space c = false).
Proof.
  intros Hd Hall.
  destruct (get_genres_run st self d Hd Hall) as (tags & Hrun & _ & _ & Htags).
  exists tags. split; [exact Hrun|]. intros t Ht.
  apply Htags in Ht as (m & g & _ & _ & Ht).
  unfold tags_of in Ht. apply in_map_iff in Ht as (piece & <- & Hpiece).
  destruct (strip_spec piece) as (ws1 & ws2 & Hp & _ & _ & Hhd & Hlast).
  split; [|split; [exact Hhd|exact Hlast]].
  intros Hcomma.
  pose proof (split_pieces 44%N g) as Hno.
  rewrite Forall_forall in Hno.
  apply (Hno piece); [now apply list_elem_of_In|].
  rewrite Hp. apply in_or_app. right. apply in_or_app. now left.
Qed.

(** X18. For a table in which every Genre is a string, [get_genres]
    returns, without touching the store, the tags obtained by splitting
    each Genre at its commas and stripping each piece: each tag once
    (two tags are the same only when they are the same string, so
    "Comedy" and "comedy" are both listed), in ascending order of their
    code points. *)
Theorem get_genres_sorted_tags (st : store) self d :
  st !! df self = Some d ->
  Forall (fun m => Genre m <> None) (rows d) ->
  exists tags,
    get_genres self st = (Ok tags, st)
    /\ StronglySorted (fun a b => Text.leb a b = true) tags
    /\ List.NoDup tags
    /\ forall t, In t tags
         <-> exists m g piece, In m (rows d) /\ Genre m = Some g
               /\ In piece (Text.split 44%N g) /\ t = Text.strip piece.
Proof.
  intros Hd Hall.
  destruct (get_genres_run st self d Hd Hall)
    as (tags & Hrun & Hsorted & Hnodup & Hin).
  exists tags. split; [exact Hrun|]. split; [exact Hsorted|].
  split; [exact Hnodup|].
  intros t. rewrite Hin. unfold tags_of. split.
  - intros (m & g & Hm & Hg & Ht).
    apply in_map_iff in Ht as (piece & <- & Hp). now exists m, g, piece.
  - intros (m & g & piece & Hm & Hg & Hp & ->). exists m, g.
    split; [exact Hm|]. split; [exact Hg|]. now apply in_map.
Qed.

(** ** Search texts and tags without metacharacters *)

(** X19. When the lower-cased search text contains no
    regular-expression metacharacter, the genre step does not raise and
    the Title column is text if the search text is not empty, the call
    keeps exactly the rows that pass the text step of the specification
    ([spec_title]: the lower-cased Title contains the lower-cased search
    text, a missing Title never passes, and an empty search text lets
    every row pass) and the two other steps. *)
Theorem title_step_plain py (st : store) self d genres rating search_query :
  st !! df self = Some d ->
  plain (Text.lower py search_query) ->
  step_raises py (genre_text d) true (genre_pattern genres) = false ->
  (search_query <> [] -> title_text d = true) ->
  exists out,
    view_of (filter_movies py self genres rating search_query st) = Ok out
    /\ Permutation out
         (List.filter (fun m => pass_genre py genres m && keep_rating rating m
                                && spec_title py search_query m) (rows d)).
Proof.
  intros Hd Hp Hg Htext.
  destruct (title_plain py (title_text d) search_query Hp) as (Hq & Hspec).
  rewrite (filter_movies_view _ _ _ _ _ _ _ Hd), expected_view_ok.
  - eexists. split; [reflexivity|]. rewrite lexsort_perm.
    erewrite List.filter_ext; [reflexivity|].
    intros m. unfold passes. now rewrite Hspec.
  - unfold call_raises. rewrite Hg. cbn [orb]. unfold step_raises.
    rewrite Hq. destruct search_query; [reflexivity|].
    now rewrite Htext.
Qed.

(** X20. With tags and a lower-cased search text that contain no
    regular-expression metacharacter, the call raises only at a column
    that is not text: AttributeError when a tag other than "All" is
    selected and the Genre column is not text, or the search text is not
    empty and the Title column is not text.  In every other case it
    returns a view: a row whose Genre, Rating or Title is missing is
    left out by the step that reads the field, and when no row passes
    the view is empty. *)
Theorem filter_movies_returns_on_plain
    py (st : store) self d genres rating search_query :
  st !! df self = Some d ->
  Forall plain (selected_genres genres) ->
  plain (Text.lower py search_query) ->
  if (truthy (selected_genres genres) && negb (genre_text d))
     || (truthy search_query && negb (title_text d))
  then view_of (filter_movies py self genres rating search_query st)
       = Raise AttributeError
  else exists out,
      view_of (filter_movies py self genres rating search_query st) = Ok out
      /\ (selected_genres genres <> [] -> Forall (fun m => Genre m <> None) out)
      /\ ((0 < rating)%Z -> Forall (fun m => Rating m <> None) out)
      /\ (search_query <> [] -> Forall (fun m => Title m <> None) out)
      /\ ((forall m, In m (rows d) ->
             spec_genre py genres m && keep_rating rating m
             && spec_title py search_query m = false) -> out = []).
Proof.
  intros Hd Hpg Hpq.
  destruct (genre_plain py (genre_text d) genres Hpg) as (Hg & Hsg).
  destruct (title_plain py (title_text d) search_query Hpq) as (Hq & Hsq).
  rewrite (filter_movies_view _ _ _ _ _ _ _ Hd).
  unfold expected_view, call_error. rewrite Hg, Hq.
  destruct (truthy (selected_genres genres) && negb (genre_text d));
    [reflexivity|].
  destruct (truthy search_query && negb (title_text d)); [reflexivity|].
  cbn [orb]. eexists. split; [reflexivity|].
  set (out := Pandas.lexsort _).
  assert (Hkept : forall m, In m out ->
            In m (rows d) /\ spec_genre py genres m = true
            /\ keep_rating rating m = true
            /\ spec_title py search_query m = true).
  { intros m Hm.
    apply (Permutation_in m (lexsort_perm _)) in Hm.
    apply filter_In in Hm as [Hin Hk]. unfold passes in Hk.
    rewrite !andb_true_iff, Hsg, Hsq in Hk. tauto. }
  repeat split.
  - intros Hsel. apply Forall_forall. intros m Hm.
    apply list_elem_of_In, Hkept in Hm as (_ & H & _).
    unfold spec_genre in H.
    destruct (selected_genres genres); [contradiction|]. simpl in H.
    now destruct (Genre m).
  - intros Hpos. apply Forall_forall. intros m Hm.
    apply list_elem_of_In, Hkept in Hm as (_ & _ & H & _).
    unfold keep_rating in H. apply Z.ltb_lt in Hpos. rewrite Hpos in H.
    now destruct (Rating m).
  - intros Hne. apply Forall_forall. intros m Hm.
    apply list_elem_of_In, Hkept in Hm as (_ & _ & _ & H).
    unfold spec_title in H.
    destruct search_query; [contradiction|]. simpl in H.
    now destruct (Title m).
  - intros Hnone. destruct out as [|m out'] eqn:E; [reflexivity|].
    destruct (Hkept m (or_introl Logic.eq_refl)) as (Hin & H1 & H2 & H3).
    specialize (Hnone m Hin). rewrite H1, H2, H3 in Hnone. discriminate.
Qed.

(** ** Search texts that are not regular expressions *)

Lemma title_step_invalid py d genres rating search_query :
  truthy search_query = true ->
  Re.compile (Text.lower py search_query) = Re.Invalid ->
  exists e, expected_view py d genres rating search_query = Raise e.
Proof.
  intros Ht Hc. unfold expected_view, call_error.
  destruct (step_error py (genre_text d) true (genre_pattern genres)) as [e|];
    [now exists e|].
  unfold query_pattern. rewrite Ht. unfold step_error, Re.engine. rewrite Hc.
  destruct (title_text d); eauto.
Qed.

(** X11. An ASCII search text that begins with [*], [+], [?] or [)]
    makes the call raise an exception, whatever the table holds and
    whatever tags are selected. *)
Theorem dangling_search_text_raises
    py (st : store) self d genres rating (c : char) (rest : str) :
  st !! df self = Some d ->
  In c [42; 43; 63; 41]%N ->
  Text.is_ascii rest = true ->
  exists e,
    view_of (filter_movies py self genres rating (c :: rest) st) = Raise e.
Proof.
  intros Hd Hc Hrest. rewrite (filter_movies_view _ _ _ _ _ _ _ Hd).
  apply title_step_invalid; [reflexivity|].
  unfold Text.lower.
  assert (Ha : Text.is_ascii (c :: rest) = true).
  { cbn [Text.is_ascii forallb]. fold (Text.is_ascii rest). rewrite Hrest.
    destruct Hc as [<-|[<-|[<-|[<-|[]]]]]; reflexivity. }
  rewrite Ha.
  destruct Hc as [<-|[<-|[<-|[<-|[]]]]]; reflexivity.
Qed.

(** X12. An ASCII search text made of characters that are no
    regular-expression metacharacters and of one opening parenthesis
    makes the call raise an exception, whatever the table holds and
    whatever tags are selected. *)
Theorem unclosed_parenthesis_raises
    py (st : store) self d genres rating (before after : str) :
  st !! df self = Some d ->
  plain before -> plain after ->
  Text.is_ascii before = true -> Text.is_ascii after = true ->
  exists e,
    view_of (filter_movies py self genres rating (before ++ 40%N :: after) st)
    = Raise e.
Proof.
  intros Hd Hb Ha Hab Haa. rewrite (filter_movies_view _ _ _ _ _ _ _ Hd).
  apply title_step_invalid; [now destruct before|].
  unfold Text.lower.
  assert (Hascii : Text.is_ascii (before ++ 40%N :: after) = true).
  { unfold Text.is_ascii in *. rewrite forallb_app, Hab. simpl.
    exact Haa. }
  rewrite Hascii, map_app. unfold Re.compile.
  apply (lower_plain py _ Hab) in Hb. apply (lower_plain py _ Haa) in Ha.
  unfold Text.lower in Hb, Ha. rewrite Hab in Hb. rewrite Haa in Ha.
  rewrite parse_plain by exact Hb.
  change (map Text.lower_char (40%N :: after))
    with (40%N :: map Text.lower_char after).
  generalize (Re.feed Re.empty_frame (map Text.lower_char before)).
  intros cur. cbn [Re.parse Re.classify].
  destruct Ha as [|c w Hc Hw]; [reflexivity|].
  assert (E : Re.parse Re.empty_frame [cur] (c :: w) = Re.Invalid).
  { rewrite <- (app_nil_r (c :: w)).
    rewrite parse_plain by now constructor. reflexivity. }
  destruct (N.eqb_spec c 63) as [->|Hne]; [discriminate Hc|].
  destruct c as [|p]; [exact E|].
  do 6 (destruct p as [p|p|]; try exact E). contradiction.
Qed.
(** ** Pages *)

Lemma total_pages_div (res : Rows) :
  total_pages res = ((Z.of_nat (length res) + 11) / 12)%Z.
Proof.
  unfold total_pages, per_page, Qceiling, Qfloor, Qdiv, Qinv, Qmult, Qopp,
    inject_Z. simpl Qnum. simpl Qden.
  rewrite Z.mul_1_r. change (Z.pos (1 * 12)) with 12%Z.
  generalize (Z.of_nat (length res)). intros n.
  Z.to_euclidean_division_equations. lia.
Qed.

Lemma total_pages_bounds (res : Rows) :
  (12 * (total_pages res - 1) < Z.of_nat (length res) <= 12 * total_pages res
   \/ (res = [] /\ total_pages res = 0))%Z.
Proof.
  rewrite total_pages_div. destruct res as [|m res]; [now right|left].
  generalize (Nat2Z.is_nonneg (length (m :: res))).
  assert (0 < Z.of_nat (length (m :: res)))%Z by (simpl; lia).
  generalize dependent (Z.of_nat (length (m :: res))). intros n Hn _.
  Z.to_euclidean_division_equations. lia.
Qed.

Lemma page_data_chunk (res : Rows) (p : Z) :
  (1 <= p)%Z ->
  page_data res p
  = firstn 12 (skipn (12 * Z.to_nat (p - 1)) res).
Proof.
  intros Hp. unfold page_data, iloc, slice_bound, per_page.
  set (n := Z.of_nat (length res)).
  assert (Hs : (0 <= (p - 1) * 12)%Z) by lia.
  destruct (Z.ltb_spec ((p - 1) * 12) 0) as [|_]; [lia|].
  destruct (Z.ltb_spec ((p - 1) * 12 + 12) 0) as [|_]; [lia|].
  assert (Hk : (12 * Z.to_nat (p - 1))%nat = Z.to_nat ((p - 1) * 12)) by lia.
  rewrite Hk.
  destruct (Z.le_gt_cases ((p - 1) * 12) n) as [Hin|Hout].
  - rewrite (Z.min_l ((p - 1) * 12) n) by exact Hin.
    destruct (Z.le_gt_cases ((p - 1) * 12 + 12) n) as [Hfull|Hlast].
    + rewrite (Z.min_l ((p - 1) * 12 + 12) n) by exact Hfull. f_equal. lia.
    + rewrite (Z.min_r ((p - 1) * 12 + 12) n) by lia.
      rewrite !firstn_all2; [reflexivity| |]; rewrite length_skipn; lia.
  - rewrite (Z.min_r ((p - 1) * 12) n), (Z.min_r ((p - 1) * 12 + 12) n)
      by lia.
    rewrite Z.sub_diag. change (Z.to_nat 0) with 0%nat. cbn [firstn].
    rewrite (skipn_all2 (n := Z.to_nat ((p - 1) * 12)) res) by lia.
    reflexivity.
Qed.

Lemma chunks_concat {A} (l : list A) (t : nat) :
  (length l <= 12 * t)%nat ->
  concat (map (fun k => firstn 12 (skipn (12 * k) l)) (seq 0 t)) = l.
Proof.
  revert l. induction t as [|t IH]; intros l Hl.
  - destruct l; [reflexivity|simpl in Hl; lia].
  - cbn [seq map concat]. rewrite <- seq_shift, map_map.
    rewrite Nat.mul_0_r. cbn [skipn].
    transitivity (firstn 12 l ++ skipn 12 l); [|apply firstn_skipn].
    f_equal.
    rewrite <- (IH (skipn 12 l)) by (rewrite length_skipn; lia).
    f_equal. apply map_ext. intros k. f_equal.
    rewrite skipn_skipn. f_equal. lia.
Qed.

(** X13. The pages 1 to [total_pages] are consecutive pieces of the
    results: shown one after the other they give every row once, in the
    order of the results. *)
Theorem pages_partition (res : Rows) :
  concat (map (fun k => page_data res (Z.of_nat k))
              (seq 1 (Z.to_nat (total_pages res))))
  = res.
Proof.
  rewrite <- seq_shift, map_map.
  rewrite <- (chunks_concat res (Z.to_nat (total_pages res))) at 2.
  - f_equal. apply map_ext. intros k. rewrite page_data_chunk by lia.
    do 3 f_equal. lia.
  - destruct (total_pages_bounds res) as [H|[-> _]]; [lia|simpl; lia].
Qed.

(** X14. Every page from 1 to [total_pages] shows at least one row and
    at most twelve, every page before the last shows twelve, and a page
    beyond the last shows none. *)
Theorem page_sizes (res : Rows) (p : Z) :
  (1 <= p)%Z ->
  ((p <= total_pages res)%Z ->
     (1 <= length (page_data res p) <= 12)%nat
     /\ ((p < total_pages res)%Z -> length (page_data res p) = 12%nat))
  /\ ((total_pages res < p)%Z -> page_data res p = []).
Proof.
  intros Hp. rewrite page_data_chunk by exact Hp.
  destruct (total_pages_bounds res) as [Hb|[-> Ht]].
  - split.
    + intros Hle. rewrite length_firstn, length_skipn. split; [lia|].
      intros Hlt. lia.
    + intros Hgt. rewrite skipn_all2 by lia. reflexivity.
  - rewrite Ht. split; [lia|]. intros _. now rewrite skipn_nil.
Qed.
(** ** Cards *)


(** ** The session *)

Lemma refilter_run py (st : store) rec d genres rating search_query :
  st !! df rec = Some d ->
  exists st', st ⊆ st' /\
    match expected_view py d genres rating search_query with
    | Ok out =>
        exists v, refilter py rec genres rating search_query st
                  = (Ok (mkSession v 1), st')
                  /\ st' !! v = Some (with_rows d out)
    | Raise e =>
        refilter py rec genres rating search_query st = (Raise e, st')
    | Outside =>
        refilter py rec genres rating search_query st = (Outside, st')
    end.
Proof.
  intros Hd.
  destruct (filter_movies_run py st rec d genres rating search_query Hd)
    as (st' & Hsub & H).
  exists st'. split; [exact Hsub|]. unfold refilter.
  destruct (expected_view py d genres rating search_query) as [out|e|].
  - destruct H as (v & Hrun & _ & Hv). exists v.
    split; [|exact Hv]. now rewrite (bind_ok _ _ _ _ _ Hrun).
  - now apply bind_raise.
  - now apply bind_outside.
Qed.

(** Whether a call returns, and what it raises, does not depend on the
    threshold. *)
Lemma expected_view_any_rating py d genres r1 r2 search_query :
  match expected_view py d genres r1 search_query,
        expected_view py d genres r2 search_query with
  | Ok _, Ok _ => True
  | Raise e1, Raise e2 => e1 = e2
  | Outside, Outside => True
  | _, _ => False
  end.
Proof.
  unfold expected_view.
  now destruct (call_error py d genres search_query).
Qed.

Lemma valid_session_weaken ss (st st' : store) :
  valid_session ss st -> st ⊆ st' -> valid_session ss st'.
Proof.
  intros (res & Hres & Hp) Hsub. exists res.
  split; [now apply (lookup_weaken st)|exact Hp].
Qed.

Lemma number_input_accepts (res : Rows) (p : Z) (asked : option Z) :
  res <> [] ->
  (p = 1 \/ 1 <= p <= total_pages res)%Z ->
  exists p', number_input 1 (total_pages res) p asked = Some p'
             /\ (1 <= p' <= total_pages res)%Z.
Proof.
  intros Hres Hp.
  assert (Ht : (1 <= total_pages res)%Z).
  { destruct (total_pages_bounds res) as [H|[H _]]; [|contradiction].
    destruct res; [contradiction|]. simpl length in H. lia. }
  unfold number_input.
  assert (Hin : ((1 <=? p) && (p <=? total_pages res))%Z = true)
    by (apply andb_true_iff; split; apply Z.leb_le; lia).
  rewrite Hin. destruct asked as [a|].
  - destruct ((1 <=? a) && (a <=? total_pages res))%Z eqn:Ha.
    + exists a. split; [reflexivity|].
      apply andb_true_iff in Ha as [H1 H2].
      apply Z.leb_le in H1, H2. lia.
    + exists p. split; [reflexivity|lia].
  - exists p. split; [reflexivity|lia].
Qed.

(** [get_genres] reads the table and leaves the store as it is. *)
Lemma get_genres_outcome (st : store) rec d :
  st !! df rec = Some d ->
  (exists tags, get_genres rec st = (Ok tags, st))
  \/ get_genres rec st = (Raise AttributeError, st).
Proof.
  intros Hd.
  assert (Hcases : Forall (fun m => Genre m <> None) (rows d)
                   \/ Exists (fun m => Genre m = None) (rows d)).
  { induction (rows d) as [|m r IH]; [left; constructor|].
    destruct (Genre m) as [g|] eqn:Hg.
    - destruct IH as [IH|IH].
      + left. constructor; [now rewrite Hg|exact IH].
      + right. now apply Exists_cons_tl.
    - right. now apply Exists_cons_hd. }
  destruct Hcases as [Hall|Hsome].
  - left. destruct (get_genres_run st rec d Hd Hall) as (tags & Hrun & _).
    now exists tags.
  - right. now apply (get_genres_stops st rec d Hd).
Qed.

(** A run after the options of the multiselect are read. *)
Lemma main_shows py rec ss w (st : store) d :
  st !! df rec = Some d ->
  main py rec ss w st
  = match fst (get_genres rec st) with
    | Raise e => (Uncaught e, ss, st)
    | Outside => (Unmodelled, ss, st)
    | Ok _ =>
        match (if clicked w
               then refilter py rec (selected w) (slider w) (typed w)
               else ret ss) st with
        | (Raise e, st1) => (Uncaught e, ss, st1)
        | (Outside, st1) => (Unmodelled, ss, st1)
        | (Ok ss1, st1) =>
            match (if truthy (typed w)
                   then refilter py rec (selected w) (-1) (typed w)
                   else ret ss1) st1 with
            | (Raise e, st2) => (Uncaught e, ss1, st2)
            | (Outside, st2) => (Unmodelled, ss1, st2)
            | (Ok ss2, st2) => show ss2 w st2
            end
        end
    end.
Proof.
  intros Hd. unfold main.
  destruct (get_genres_outcome st rec d Hd) as [(tags & ->)| ->]; reflexivity.
Qed.

Lemma show_valid ss w (st : store) :
  valid_session ss st ->
  fst (fst (show ss w st)) <> RejectedPage
  /\ fst (fst (show ss w st)) <> Unmodelled
  /\ valid_session (snd (fst (show ss w st))) (snd (show ss w st)).
Proof.
  intros (res & Hres & Hp). unfold show. rewrite Hres.
  destruct (rows res) as [|m r] eqn:E; simpl negb; cbv iota.
  - simpl. repeat split; try discriminate. exists res. now rewrite E.
  - destruct (number_input_accepts (m :: r) (page ss) (asked_page w))
      as (p & -> & Hp'); [discriminate|exact Hp|].
    simpl. repeat split; try discriminate.
    exists res. split; [exact Hres|]. rewrite E. now right.
Qed.

(** The rows a session shows depend on the contents of its results and
    on its page, not on where the results are stored. *)
Lemma show_same_contents ss1 ss2 w1 w2 (st1 st2 : store) :
  st1 !! results ss1 = st2 !! results ss2 ->
  page ss1 = page ss2 ->
  asked_page w1 = asked_page w2 ->
  fst (fst (show ss1 w1 st1)) = fst (fst (show ss2 w2 st2)).
Proof.
  intros Hres Hp Ha. unfold show. rewrite Hres, Hp, Ha.
  destruct (st2 !! results ss2) as [res|]; [|reflexivity].
  destruct (negb (truthy (rows res))); [reflexivity|].
  now destruct (number_input 1 (total_pages (rows res)) (page ss2)
                  (asked_page w2)).
Qed.

(** X16. While the search box holds a text, what a run shows does not
    depend on the "Rekomendasikan" button or on the rating slider: the
    search box filters again with the threshold -1 after the button
    did. *)
Theorem search_overrides_button py (st : store) rec d ss w1 w2 :
  st !! df rec = Some d ->
  selected w1 = selected w2 ->
  typed w1 = typed w2 ->
  asked_page w1 = asked_page w2 ->
  typed w1 <> [] ->
  fst (fst (main py rec ss w1 st)) = fst (fst (main py rec ss w2 st)).
Proof.
  intros Hd Hsel Htyped Hasked Hne.
  assert (Hrun : forall w' : Widgets,
            selected w' = selected w2 -> typed w' = typed w2 ->
            asked_page w' = asked_page w2 ->
            fst (fst (main py rec ss w' st))
            = match fst (get_genres rec st) with
              | Raise e => Uncaught e
              | Outside => Unmodelled
              | Ok _ =>
                  match expected_view py d (selected w2) (-1) (typed w2) with
                  | Ok out =>
                      fst (fst (show (mkSession 1%positive 1) w2
                                     {[ 1%positive := with_rows d out ]}))
                  | Raise e => Uncaught e
                  | Outside => Unmodelled
                  end
              end).
  { intros w' Hs Ht Ha. rewrite (main_shows py rec ss w' st d Hd), Hs, Ht.
    destruct (fst (get_genres rec st)) as [tags|e|]; try reflexivity.
    assert (Htruthy : truthy (typed w2) = true).
    { rewrite <- Htyped. now destruct (typed w1). }
    rewrite Htruthy.
    assert (Hsearch : forall ss0 (st0 : store),
              st0 !! df rec = Some d ->
              fst (fst
                match refilter py rec (selected w2) (-1) (typed w2) st0 with
                | (Raise e, st2) => (Uncaught e, ss0, st2)
                | (Outside, st2) => (Unmodelled, ss0, st2)
                | (Ok ss2, st2) => show ss2 w' st2
                end)
              = match expected_view py d (selected w2) (-1) (typed w2) with
                | Ok out =>
                    fst (fst (show (mkSession 1%positive 1) w2
                                   {[ 1%positive := with_rows d out ]}))
                | Raise e => Uncaught e
                | Outside => Unmodelled
                end).
    { intros ss0 st0 Hd0.
      destruct (refilter_run py st0 rec d (selected w2) (-1) (typed w2) Hd0)
        as (st' & _ & H).
      destruct (expected_view py d (selected w2) (-1) (typed w2)) as [out|e|].
      - destruct H as (v & -> & Hv).
        apply show_same_contents; [|reflexivity|exact Ha].
        cbn [results]. rewrite Hv. symmetry. apply lookup_singleton_eq.
      - now rewrite H.
      - now rewrite H. }
    destruct (clicked w').
    - destruct (refilter_run py st rec d (selected w2) (slider w') (typed w2)
                  Hd) as (st1 & Hsub & H).
      pose proof (expected_view_any_rating py d (selected w2) (slider w') (-1)
                    (typed w2)) as Hsame.
      destruct (expected_view py d (selected w2) (slider w') (typed w2))
        as [out1|e1|].
      + destruct H as (v & -> & _). apply Hsearch.
        now apply (lookup_weaken st).
      + rewrite H. simpl.
        destruct (expected_view py d (selected w2) (-1) (typed w2));
          try contradiction. now subst.
      + rewrite H. simpl.
        now destruct (expected_view py d (selected w2) (-1) (typed w2)).
    - now apply Hsearch. }
  rewrite (Hrun w1 Hsel Htyped Hasked).
  now rewrite (Hrun w2 Logic.eq_refl Logic.eq_refl Logic.eq_refl).
Qed.

(** X17. The session's page always is a page of the session's results,
    so [st.number_input] never rejects it: the first session is valid,
    the callback of the genre widget returns a valid session, and a run
    from a valid session, whatever the widgets hold, does not stop at
    [st.number_input] and leaves a valid session. *)
Theorem session_stays_valid py (st : store) rec d ss w :
  st !! df rec = Some d ->
  valid_session ss st ->
  valid_session (init_session rec) st
  /\ (forall ss' st', apply_filter py rec w st = (Ok ss', st') ->
                      valid_session ss' st')
  /\ fst (fst (main py rec ss w st)) <> RejectedPage
  /\ valid_session (snd (fst (main py rec ss w st)))
                   (snd (main py rec ss w st)).
Proof.
  intros Hd Hvalid.
  assert (Hrefilter : forall (st0 : store) genres rating q ss' st',
            st0 !! df rec = Some d ->
            refilter py rec genres rating q st0 = (Ok ss', st') ->
            valid_session ss' st').
  { intros st0 genres rating q ss' st' Hd0 Hrun.
    destruct (refilter_run py st0 rec d genres rating q Hd0) as (st1 & _ & H).
    destruct (expected_view py d genres rating q) as [out|e|].
    - destruct H as (v & Hrun' & Hv). rewrite Hrun in Hrun'.
      injection Hrun' as -> ->. eexists. split; [exact Hv|now left].
    - rewrite Hrun in H. discriminate.
    - rewrite Hrun in H. discriminate. }
  split; [exists d; split; [exact Hd|now left]|].
  split; [intros ss' st'; now apply Hrefilter|].
  rewrite (main_shows py rec ss w st d Hd).
  destruct (get_genres_outcome st rec d Hd) as [(tags & ->)| ->];
    cbn [fst]; [|split; [discriminate|exact Hvalid]].
  assert (Hstep : forall (b : bool) rating ss0 (st0 : store),
            st0 !! df rec = Some d -> valid_session ss0 st0 ->
            exists o st1,
              (if b then refilter py rec (selected w) rating (typed w)
               else ret ss0) st0 = (o, st1)
              /\ st0 ⊆ st1
              /\ match o with
                 | Ok ss1 => valid_session ss1 st1
                 | _ => True
                 end).
  { intros b rating ss0 st0 Hd0 Hv0. destruct b.
    - destruct (refilter py rec (selected w) rating (typed w) st0)
        as [o st1] eqn:E.
      exists o, st1. split; [reflexivity|].
      destruct (refilter_run py st0 rec d (selected w) rating (typed w) Hd0)
        as (st1' & Hsub & H).
      assert (st1' = st1) as ->.
      { destruct (expected_view py d (selected w) rating (typed w)).
        - destruct H as (v & H & _). congruence.
        - congruence.
        - congruence. }
      split; [exact Hsub|].
      destruct o as [ss1| |]; [|exact I|exact I].
      now apply (Hrefilter st0 (selected w) rating (typed w)).
    - exists (Ok ss0), st0. now split. }
  destruct (Hstep (clicked w) (slider w) ss st Hd Hvalid)
    as (o1 & st1 & -> & Hsub1 & Ho1).
  destruct o1 as [ss1|e|]; simpl.
  - assert (Hd1 : st1 !! df rec = Some d) by now apply (lookup_weaken st).
    destruct (Hstep (truthy (typed w)) (-1)%Z ss1 st1 Hd1 Ho1)
      as (o2 & st2 & -> & Hsub2 & Ho2).
    destruct o2 as [ss2|e|]; simpl.
    + destruct (show_valid ss2 w st2 Ho2) as (H1 & _ & H2). now split.
    + split; [discriminate|]. now apply (valid_session_weaken ss1 st1).
    + split; [discriminate|]. now apply (valid_session_weaken ss1 st1).
  - split; [discriminate|]. now apply (valid_session_weaken ss st).
  - split; [discriminate|]. now apply (valid_session_weaken ss st).
Qed.

(** * The further properties at concrete inputs *)


Lemma rating_only_removes_witness :
  exists unrated,
    view_of (filter_movies ascii_python rec0 [u "Action"] (-1) [] (st0 demo))
    = Ok unrated
    /\ view_of (filter_movies ascii_python rec0 [u "Action"] 7 [] (st0 demo))
       = Ok (List.filter (keep_rating 7) unrated).
Proof.
  exact (rating_only_removes ascii_python (st0 demo) rec0 (loaded demo)
           [u "Action"] 7 [] Logic.eq_refl).
Defined.

Lemma filter_movies_idempotent_witness :
  exists v st1 out,
    filter_movies ascii_python rec0 [u "Action"] 7 (u "b") (st0 demo)
    = (Ok v, st1)
    /\ view_of (Ok v, st1) = Ok out
    /\ view_of (filter_movies ascii_python {| df := v |} [u "Action"] 7 (u "b")
                              st1)
       = Ok out.
Proof.
  exact (filter_movies_idempotent ascii_python (st0 demo) rec0 (loaded demo)
           [u "Action"] 7 (u "b") Logic.eq_refl).
Defined.

Lemma view_is_the_stable_arrangement_witness :
  view_of (filter_movies ascii_python rec0 [u "All"] (-1) [] (st0 year_demo))
  = Ok (Pandas.lexsort
          (List.filter (passes ascii_python [u "All"] (-1) []) year_demo)).
Proof.
  apply (view_is_the_stable_arrangement ascii_python (st0 year_demo) rec0
           (loaded year_demo) [u "All"] (-1) []);
    [reflexivity|reflexivity|apply lexsort_sorted|].
  intros k. apply lexsort_stable.
Defined.

Lemma no_criteria_returns_all_witness :
  exists out,
    view_of (filter_movies ascii_python rec0 [u "All"] (-1) [] (st0 demo))
    = Ok out
    /\ Permutation out demo.
Proof.
  apply (no_criteria_returns_all ascii_python (st0 demo) rec0 (loaded demo));
    [reflexivity|reflexivity|lia].
Defined.

Lemma search_text_case_is_ignored_witness :
  view_of (filter_movies ascii_python rec0 [u "All"] (-1) (u "BATman")
                         (st0 demo))
  = view_of (filter_movies ascii_python rec0 [u "All"] (-1) (u "batMAN")
                           (st0 demo)).
Proof.
  apply (search_text_case_is_ignored ascii_python (st0 demo) rec0
           (loaded demo)); reflexivity.
Defined.

Lemma rating_bands_tile_witness :
  exists out unrated,
    view_of (filter_movies ascii_python rec0 [u "All"] 7 [] (st0 band_demo))
    = Ok out
    /\ view_of (filter_movies ascii_python rec0 [u "All"] (-1) []
                              (st0 band_demo))
       = Ok unrated
    /\ forall m x, In m unrated -> Rating m = Some x ->
                   (In m out <-> 7%Z = Qfloor x).
Proof.
  apply (rating_bands_tile ascii_python (st0 band_demo) rec0
           (loaded band_demo) [u "All"] [] 7); [reflexivity|lia].
Defined.

Lemma offered_tag_selects_its_rows_witness :
  exists out,
    view_of (filter_movies ascii_python rec0 [u "All"; u "Adventure"] (-1) []
                           (st0 demo)) = Ok out
    /\ In (movie 0 "Batman Begins" "Action, Adventure" (79 # 10) 2005) out.
Proof.
  apply (offered_tag_selects_its_rows ascii_python (st0 demo) rec0 demo
           [u "All"; u "Adventure"] (-1)
           (movie 0 "Batman Begins" "Action, Adventure" (79 # 10) 2005)
           (u "Action, Adventure") (u "Adventure"));
    [reflexivity|plain_text|lia|now left|reflexivity
    |right; left; reflexivity|now left].
Defined.

Lemma more_tags_more_rows_witness :
  exists out1 out2,
    view_of (filter_movies ascii_python rec0 [u "Drama"] (-1) [] (st0 demo))
    = Ok out1
    /\ view_of (filter_movies ascii_python rec0 [u "Action"; u "Drama"] (-1)
                              [] (st0 demo)) = Ok out2
    /\ out1 = List.filter (spec_genre ascii_python [u "Drama"]) out2.
Proof.
  apply (more_tags_more_rows ascii_python (st0 demo) rec0 (loaded demo)
           [u "Drama"] [u "Action"; u "Drama"] (-1) []);
    [reflexivity|plain_text| |discriminate].
  intros t [<-|[]]. right. now left.
Defined.

Lemma get_genres_tags_are_trimmed_witness :
  exists tags,
    get_genres rec0 (st0 genre_demo) = (Ok tags, st0 genre_demo)
    /\ forall t, In t tags ->
         ~ In 44%N t
         /\ (forall c rest, t = c :: rest -> Text.is_space c = false)
         /\ (forall c front, t = front ++ [c] -> Text.is_space c = false).
Proof.
  apply (get_genres_tags_are_trimmed (st0 genre_demo) rec0 (loaded genre_demo));
    [reflexivity|repeat constructor; discriminate].
Defined.

Lemma get_genres_sorted_tags_witness :
  exists tags,
    get_genres rec0 (st0 genre_demo) = (Ok tags, st0 genre_demo)
    /\ StronglySorted (fun a b => Text.leb a b = true) tags
    /\ List.NoDup tags
    /\ forall t, In t tags
         <-> exists m g piece, In m genre_demo /\ Genre m = Some g
               /\ In piece (Text.split 44%N g) /\ t = Text.strip piece.
Proof.
  apply (get_genres_sorted_tags (st0 genre_demo) rec0 (loaded genre_demo));
    [reflexivity|repeat constructor; discriminate].
Defined.

Lemma title_step_plain_witness :
  exists out,
    view_of (filter_movies ascii_python rec0 [u "All"] (-1) (u "batman")
                           (st0 demo)) = Ok out
    /\ Permutation out
         (List.filter
            (fun m => pass_genre ascii_python [u "All"] m && keep_rating (-1) m
                      && spec_title ascii_python (u "batman") m) demo).
Proof.
  apply (title_step_plain ascii_python (st0 demo) rec0 (loaded demo));
    [reflexivity|plain_text|reflexivity|reflexivity].
Defined.

Lemma filter_movies_returns_on_plain_witness :
  exists out,
    view_of (filter_movies ascii_python rec0 [u "All"; u "Sci-Fi"] 7
                           (u "Days of") (st0 (untagged :: demo))) = Ok out
    /\ (selected_genres [u "All"; u "Sci-Fi"] <> [] ->
        Forall (fun m => Genre m <> None) out)
    /\ ((0 < 7)%Z -> Forall (fun m => Rating m <> None) out)
    /\ (u "Days of" <> [] -> Forall (fun m => Title m <> None) out)
    /\ ((forall m, In m (untagged :: demo) ->
           spec_genre ascii_python [u "All"; u "Sci-Fi"] m && keep_rating 7 m
           && spec_title ascii_python (u "Days of") m = false) -> out = []).
Proof.
  apply (filter_movies_returns_on_plain ascii_python (st0 (untagged :: demo))
           rec0 (loaded (untagged :: demo)) [u "All"; u "Sci-Fi"] 7
           (u "Days of")); [reflexivity|plain_text|plain_text].
Defined.

Lemma dangling_search_text_raises_witness :
  exists e,
    view_of (filter_movies ascii_python rec0 [u "All"] (-1) (u "*batman")
                           (st0 demo)) = Raise e.
Proof.
  apply (dangling_search_text_raises ascii_python (st0 demo) rec0
           (loaded demo) [u "All"] (-1) 42%N (u "batman"));
    [reflexivity|now left|reflexivity].
Defined.

Lemma unclosed_parenthesis_raises_witness :
  exists e,
    view_of (filter_movies ascii_python rec0 [u "All"] (-1) (u "days (500")
                           (st0 demo)) = Raise e.
Proof.
  apply (unclosed_parenthesis_raises ascii_python (st0 demo) rec0
           (loaded demo) [u "All"] (-1) (u "days ") (u "500"));
    [reflexivity|plain_text|plain_text|reflexivity|reflexivity].
Defined.

Lemma page_sizes_witness :
  (1 <= length (page_data demo 1) <= 12)%nat
  /\ page_data demo 2 = [].
Proof.
  split.
  - apply (page_sizes demo 1); [lia|vm_compute; discriminate].
  - apply (page_sizes demo 2); [lia|vm_compute; reflexivity].
Defined.


Lemma search_overrides_button_witness :
  fst (fst (main ascii_python rec0 (init_session rec0)
                 (mkWidgets [u "All"] 9 true (u "up") None) (st0 demo)))
  = fst (fst (main ascii_python rec0 (init_session rec0)
                   (mkWidgets [u "All"] 2 false (u "up") None) (st0 demo))).
Proof.
  apply (search_overrides_button ascii_python (st0 demo) rec0 (loaded demo));
    [reflexivity|reflexivity|reflexivity|reflexivity|discriminate].
Defined.

Lemma session_stays_valid_witness :
  valid_session (init_session rec0) (st0 demo)
  /\ (forall ss' st',
        apply_filter ascii_python rec0 idle (st0 demo) = (Ok ss', st') ->
        valid_session ss' st')
  /\ fst (fst (main ascii_python rec0 (init_session rec0) idle (st0 demo)))
     <> RejectedPage
  /\ valid_session
       (snd (fst (main ascii_python rec0 (init_session rec0) idle (st0 demo))))
       (snd (main ascii_python rec0 (init_session rec0) idle (st0 demo))).
Proof.
  assert (H : valid_session (init_session rec0) (st0 demo))
    by (exists (loaded demo); split; [reflexivity|now left]).
  apply (session_stays_valid ascii_python (st0 demo) rec0 (loaded demo)
           (init_session rec0) idle); [reflexivity|exact H].
Defined.

(** The page of a table with a missing Genre stops where the options of
    the genre widget are read. *)
Example page_stops_at_missing_genre :
  fst (fst (main ascii_python rec0 (init_session rec0) idle
                 (st0 (demo ++ [untagged]))))
  = Uncaught AttributeError.
Proof. reflexivity. Qed.
